(** * netmonitor: the per-host statistics engine of [cmd/netmonitor/main.go]

    A shallow embedding of [PingStats], [Monitor], [NewMonitor],
    the body of the polling loop of [monitorHost], [Start] and [GetStats],
    followed by the properties of the statistics they maintain.

    Modelling choices, all taken from the source:
    - Go [int] is the 64-bit two's complement integer of the amd64 port: a [Z]
      kept in range by [wrap_int] after every arithmetic operation;
    - Go [float64] is IEEE 754 binary64: Rocq's primitive [float], whose
      operations round to nearest even exactly as the hardware does (no fused
      multiply-add, as on amd64). The arithmetic is reached through the
      interface [Float64Ops], whose one instance is binary64;
    - [time.Time] is abstract: the zero value and the instants [time.Now()]
      returns, which are inputs of the model;
    - [map[string]*PingStats] is a [gmap string PingStats]: every key owns the
      object it points to and no pointer is shared between keys;
    - [sync.RWMutex] is a state machine whose operations return [None] where
      the caller would block. *)

From Stdlib Require Import ZArith Floats List Bool Lia.
From Stdlib Require Import Ascii String.
From stdpp Require Import gmap strings.
Import ListNotations.

Set Warnings "-inexact-float".
Local Open Scope Z_scope.

(** ** Go [int] *)

Definition int_min : Z := - 2 ^ 63.
Definition int_max : Z := 2 ^ 63 - 1.

(** Two's complement wrap-around of a 64-bit signed integer. *)
Definition wrap_int (z : Z) : Z := (z + 2 ^ 63) mod 2 ^ 64 - 2 ^ 63.

(** ** Go [float64] *)

(** The operations the loop body performs on [float64] values. [f_of_int] is
    the conversion [float64(n)]; [f_neg1], [f_0_9], [f_0_1] and [f_100] are the
    constants [-1], [0.9], [0.1] and [100] of the source; [f_zero] is the zero
    value of the type. *)
Class Float64Ops (F : Type) : Type := {
  f_zero : F;
  f_neg1 : F;
  f_0_9 : F;
  f_0_1 : F;
  f_100 : F;
  f_of_int : Z -> F;
  f_add : F -> F -> F;
  f_sub : F -> F -> F;
  f_mul : F -> F -> F;
  f_div : F -> F -> F;
  f_opp : F -> F;
  f_eqb : F -> F -> bool;
  f_ltb : F -> F -> bool
}.

Declare Scope f64_scope.
Delimit Scope f64_scope with f64.
Infix "⊕" := f_add (at level 50, left associativity) : f64_scope.
Infix "⊖" := f_sub (at level 50, left associativity) : f64_scope.
Infix "⊗" := f_mul (at level 40, left associativity) : f64_scope.
Infix "⊘" := f_div (at level 40, left associativity) : f64_scope.
Infix "≐" := f_eqb (at level 70, no associativity) : f64_scope.
Infix "≺" := f_ltb (at level 70, no associativity) : f64_scope.
Notation "x ≻ y" := (f_ltb y x) (at level 70, no associativity) : f64_scope.

(** [float64(n)] for a 64-bit [n]: the nearest binary64 value, ties to even.
    [of_uint63] converts the magnitudes below [2^63]; [-2^63] is a power of
    two and converts exactly. *)
Definition float_of_int (n : Z) : float :=
  if n =? int_min then (- Z.ldexp 1 63)%float
  else if n <? 0 then (- of_uint63 (Uint63.of_Z (- n)))%float
  else of_uint63 (Uint63.of_Z n).

(** IEEE 754 binary64, the arithmetic the program runs on. *)
#[export] Instance binary64 : Float64Ops float := {
  f_zero := 0%float;
  f_neg1 := (-1)%float;
  f_0_9 := 0.9%float;
  f_0_1 := 0.1%float;
  f_100 := 100%float;
  f_of_int := float_of_int;
  f_add := PrimFloat.add;
  f_sub := PrimFloat.sub;
  f_mul := PrimFloat.mul;
  f_div := PrimFloat.div;
  f_opp := PrimFloat.opp;
  f_eqb := PrimFloat.eqb;
  f_ltb := PrimFloat.ltb
}.

(** ** [time.Time] *)

Inductive Time : Type :=
| TimeZero : Time
| TimeAt (unix_nanos : Z) : Time.

(** ** The result of [m.ping(host)]

    [Success latency] is [(latency, nil)]; [Failure] is any [(0, err)] with
    [err != nil], whose first component the caller never reads. *)
Inductive ProbeOutcome (F : Type) : Type :=
| Success (latency : F) : ProbeOutcome F
| Failure : ProbeOutcome F.
Arguments Success {F} latency.
Arguments Failure {F}.

(** ** [PingStats] *)

Record PingStats (F : Type) : Type := mkPingStats {
  Host : string;
  Status : string;
  LastSeen : Time;
  PacketsSent : Z;
  PacketsRecv : Z;
  PacketLoss : F;
  AvgLatency : F;
  MinLatency : F;
  MaxLatency : F;
  CurrentLatency : F;
  Jitter : F
}.
Arguments mkPingStats {F}.
Arguments Host {F}.
Arguments Status {F}.
Arguments LastSeen {F}.
Arguments PacketsSent {F}.
Arguments PacketsRecv {F}.
Arguments PacketLoss {F}.
Arguments AvgLatency {F}.
Arguments MinLatency {F}.
Arguments MaxLatency {F}.
Arguments CurrentLatency {F}.
Arguments Jitter {F}.

Section Tracker.
Context {F : Type} `{Float64Ops F}.
Local Open Scope f64_scope.

(** The struct literal of [NewMonitor]: the fields it does not name take
    their zero value. *)
Definition newPingStats (host : string) : PingStats F :=
  {| Host := host; Status := "unknown"; LastSeen := TimeZero;
     PacketsSent := 0; PacketsRecv := 0;
     PacketLoss := f_zero; AvgLatency := f_zero;
     MinLatency := f_neg1; MaxLatency := f_neg1;
     CurrentLatency := f_zero; Jitter := f_zero |}.

(** The [else] branch of the loop body: a reply came back after [latency]
    milliseconds. [s] already has [PacketsSent] incremented. *)
Definition on_reply (s : PingStats F) (lastLatency latency : F) (now : Time)
  : PingStats F * F :=
  let recv := wrap_int (PacketsRecv s + 1) in
  let min :=
    if (MinLatency s ≐ f_neg1) || (latency ≺ MinLatency s)
    then latency else MinLatency s in
  let max :=
    if latency ≻ MaxLatency s then latency else MaxLatency s in
  let avg :=
    if (recv =? 1)%Z then latency
    else (AvgLatency s ⊗ f_of_int (wrap_int (recv - 1)) ⊕ latency)
         ⊘ f_of_int recv in
  let jit :=
    if lastLatency ≻ f_zero then
      let jitter := latency ⊖ lastLatency in
      let jitter := if jitter ≺ f_zero then f_opp jitter else jitter in
      Jitter s ⊗ f_0_9 ⊕ jitter ⊗ f_0_1
    else Jitter s in
  ({| Host := Host s; Status := "up"; LastSeen := now;
      PacketsSent := PacketsSent s; PacketsRecv := recv;
      PacketLoss := PacketLoss s; AvgLatency := avg;
      MinLatency := min; MaxLatency := max;
      CurrentLatency := latency; Jitter := jit |},
   latency).

(** The [if err != nil] branch. *)
Definition on_error (s : PingStats F) (lastLatency : F) : PingStats F * F :=
  ({| Host := Host s; Status := "down"; LastSeen := LastSeen s;
      PacketsSent := PacketsSent s; PacketsRecv := PacketsRecv s;
      PacketLoss := PacketLoss s; AvgLatency := AvgLatency s;
      MinLatency := MinLatency s; MaxLatency := MaxLatency s;
      CurrentLatency := CurrentLatency s; Jitter := Jitter s |},
   lastLatency).

(** The packet loss computation that ends the loop body. *)
Definition packet_loss (s : PingStats F) : PingStats F :=
  if (PacketsSent s >? 0)%Z then
    {| Host := Host s; Status := Status s; LastSeen := LastSeen s;
       PacketsSent := PacketsSent s; PacketsRecv := PacketsRecv s;
       PacketLoss :=
         f_of_int (wrap_int (PacketsSent s - PacketsRecv s))
         ⊘ f_of_int (PacketsSent s) ⊗ f_100;
       AvgLatency := AvgLatency s;
       MinLatency := MinLatency s; MaxLatency := MaxLatency s;
       CurrentLatency := CurrentLatency s; Jitter := Jitter s |}
  else s.

Definition incr_sent (s : PingStats F) : PingStats F :=
  {| Host := Host s; Status := Status s; LastSeen := LastSeen s;
     PacketsSent := wrap_int (PacketsSent s + 1);
     PacketsRecv := PacketsRecv s;
     PacketLoss := PacketLoss s; AvgLatency := AvgLatency s;
     MinLatency := MinLatency s; MaxLatency := MaxLatency s;
     CurrentLatency := CurrentLatency s; Jitter := Jitter s |}.

(** What one iteration of the loop of [monitorHost] does to the host's
    [PingStats] and to the local variable [lastLatency], between
    [m.mu.Lock()] and [m.mu.Unlock()]. [now] is what [time.Now()] returns. *)
Definition Apply (s : PingStats F) (lastLatency : F)
    (o : ProbeOutcome F) (now : Time) : PingStats F * F :=
  let s := incr_sent s in
  let '(s, lastLatency) :=
    match o with
    | Failure => on_error s lastLatency
    | Success latency => on_reply s lastLatency latency now
    end in
  (packet_loss s, lastLatency).

(** The polling task of one host: its statistics and its [lastLatency]. *)
Record HostTask : Type := mkHostTask {
  stats_of : PingStats F;
  lastLatency_of : F
}.

(** [var lastLatency float64] in front of the loop, and the entry
    [NewMonitor] made for the host. *)
Definition task_start (host : string) : HostTask :=
  {| stats_of := newPingStats host; lastLatency_of := f_zero |}.

Definition task_step (t : HostTask) (tick : ProbeOutcome F * Time) : HostTask :=
  let '(s, l) := Apply (stats_of t) (lastLatency_of t) (fst tick) (snd tick) in
  {| stats_of := s; lastLatency_of := l |}.

(** The loop of [monitorHost] over the ticks that have fired so far, each
    with the outcome of its probe and the time read on a reply. *)
Definition monitorHost (host : string) (ticks : list (ProbeOutcome F * Time))
  : HostTask :=
  fold_left task_step ticks (task_start host).

(** The latencies of the replies of a run, oldest first. *)
Fixpoint replies (ticks : list (ProbeOutcome F * Time)) : list F :=
  match ticks with
  | [] => []
  | (Success latency, _) :: ticks => latency :: replies ticks
  | (Failure, _) :: ticks => replies ticks
  end.

Definition f_sum (l : list F) : F := fold_left f_add l f_zero.

(** The arithmetic mean of a batch of samples. *)
Definition mean (l : list F) : F :=
  f_sum l ⊘ f_of_int (Z.of_nat (length l)).

(** [|x - y|] as the loop body computes it: the difference, negated when it
    is below zero. *)
Definition abs_diff (x y : F) : F :=
  let d := x ⊖ y in if d ≺ f_zero then f_opp d else d.

(** The jitter after a reply with latency [r], from the jitter [j] and the
    baseline [l] before it. *)
Definition next_jitter (j l r : F) : F :=
  if l ≻ f_zero then j ⊗ f_0_9 ⊕ abs_diff r l ⊗ f_0_1 else j.

End Tracker.

(** ** [sync.RWMutex]

    The lock is held by at most one writer or by any number of readers. An
    operation returns [None] where the calling goroutine has to wait.

    The state records who holds the lock, not who waits for it. [rw_RLock]
    therefore admits a reader whenever no writer holds the lock, while
    [sync.RWMutex] also keeps a new reader waiting as long as a call of
    [Lock] is pending. Every execution of the program is one of the model;
    the model has more. What is proved below of all executions of the model
    holds of all executions of the program. A call of [Lock] can be pending
    without a writer holding the lock only while readers hold it, and no
    statement below concludes that a reader is admitted in such a state. *)

Record RWMutex : Type := mkRWMutex {
  writer : bool;
  readers : nat
}.

(** The zero value: an unlocked mutex. *)
Definition rw_unlocked : RWMutex := {| writer := false; readers := 0 |}.

Definition rw_Lock (l : RWMutex) : option RWMutex :=
  if writer l || negb (Nat.eqb (readers l) 0) then None
  else Some {| writer := true; readers := readers l |}.

Definition rw_Unlock (l : RWMutex) : RWMutex :=
  {| writer := false; readers := readers l |}.

Definition rw_RLock (l : RWMutex) : option RWMutex :=
  if writer l then None
  else Some {| writer := false; readers := S (readers l) |}.

Definition rw_RUnlock (l : RWMutex) : RWMutex :=
  {| writer := writer l; readers := Nat.pred (readers l) |}.

(** ** [Monitor] *)

Record Monitor (F : Type) : Type := mkMonitor {
  hosts : list string;
  port : Z;
  interval : Z;
  stats : gmap string (PingStats F);
  mu : RWMutex
}.
Arguments mkMonitor {F}.
Arguments hosts {F}.
Arguments port {F}.
Arguments interval {F}.
Arguments stats {F}.
Arguments mu {F}.

(** What a step of a goroutine comes to: it ran, it waits for the lock, or it
    dereferenced the nil pointer a missing map key yields. *)
Inductive Step (A : Type) : Type :=
| Ran (a : A) : Step A
| Blocked : Step A
| Panicked : Step A.
Arguments Ran {A} a.
Arguments Blocked {A}.
Arguments Panicked {A}.

(** Where a goroutine running [monitorHost] stands in its loop. *)
Inductive Pc (F : Type) : Type :=
| AtTick : Pc F                          (* waits for the ticker, then pings *)
| AtLock (o : ProbeOutcome F) : Pc F     (* about to call [m.mu.Lock()] *)
| InLock (o : ProbeOutcome F) : Pc F     (* holds [m.mu], body still to run *)
| AtUnlock : Pc F.                       (* about to call [m.mu.Unlock()] *)
Arguments AtTick {F}.
Arguments AtLock {F} o.
Arguments InLock {F} o.
Arguments AtUnlock {F}.

Record Goroutine (F : Type) : Type := mkGoroutine {
  g_host : string;
  g_lastLatency : F;
  g_pc : Pc F
}.
Arguments mkGoroutine {F}.
Arguments g_host {F}.
Arguments g_lastLatency {F}.
Arguments g_pc {F}.

Section Registry.
Context {F : Type} `{Float64Ops F}.

Definition NewMonitor (hs : list string) (p : Z) (i : Z) : Monitor F :=
  {| hosts := hs; port := p; interval := i;
     stats := fold_left (fun st host => <[host := newPingStats host]> st) hs ∅;
     mu := rw_unlocked |}.

Definition with_mu (m : Monitor F) (l : RWMutex) : Monitor F :=
  {| hosts := hosts m; port := port m; interval := interval m;
     stats := stats m; mu := l |}.

Definition with_stats (m : Monitor F) (st : gmap string (PingStats F))
  : Monitor F :=
  {| hosts := hosts m; port := port m; interval := interval m;
     stats := st; mu := mu m |}.

(** One step of a goroutine running [monitorHost (g_host g)] on the monitor
    [m]. [tick] is the outcome of the probe the goroutine makes when it is
    at [AtTick] and the time it reads when it is at [InLock]. *)
Definition goroutine_step (m : Monitor F) (g : Goroutine F)
    (tick : ProbeOutcome F * Time) : Step (Monitor F * Goroutine F) :=
  match g_pc g with
  | AtTick =>
      Ran (m, {| g_host := g_host g; g_lastLatency := g_lastLatency g;
                 g_pc := AtLock (fst tick) |})
  | AtLock o =>
      match rw_Lock (mu m) with
      | Some l =>
          Ran (with_mu m l,
               {| g_host := g_host g; g_lastLatency := g_lastLatency g;
                  g_pc := InLock o |})
      | None => Blocked
      end
  | InLock o =>
      match stats m !! g_host g with
      | Some s =>
          let '(s', last) := Apply s (g_lastLatency g) o (snd tick) in
          Ran (with_stats m (<[g_host g := s']> (stats m)),
               {| g_host := g_host g; g_lastLatency := last;
                  g_pc := AtUnlock |})
      | None => Panicked
      end
  | AtUnlock =>
      Ran (with_mu m (rw_Unlock (mu m)),
           {| g_host := g_host g; g_lastLatency := g_lastLatency g;
              g_pc := AtTick |})
  end.

(** [Start]: one goroutine per entry of [m.hosts], each at the top of its
    loop with [lastLatency] at its zero value. *)
Definition Start (m : Monitor F) : list (Goroutine F) :=
  map (fun host => {| g_host := host; g_lastLatency := f_zero;
                      g_pc := AtTick |}) (hosts m).

(** [GetStats]: under the read lock, a copy of every entry of the map, in
    the order the iteration over the map yields them. The deferred
    [RUnlock] leaves the mutex as the call found it. *)
Definition GetStats (m : Monitor F) : Step (list (PingStats F)) :=
  match rw_RLock (mu m) with
  | Some _ => Ran (map snd (map_to_list (stats m)))
  | None => Blocked
  end.

End Registry.

(** * Example runs, and the properties put to the test *)

(** Three probes, two replies (30 ms and 50 ms) with a lost probe in
    between. *)
Definition three_probes : list (ProbeOutcome float * Time) :=
  [(Success 30%float, TimeAt 5000000000);
   (Failure, TimeAt 10000000000);
   (Success 50%float, TimeAt 15000000000)].

(** Eight replies whose mean, 30/8 = 3.75, is a binary64 value. *)
Definition eight_replies : list (ProbeOutcome float * Time) :=
  map (fun r => (Success r, TimeAt 0))
      [4; 4; 4; 4; 4; 4; 5; 1]%float.

(** A monitor of two hosts, and the goroutine of each about to take the lock
    for the outcome of its probe. *)
Definition two_hosts : Monitor float :=
  NewMonitor ["alpha"; "beta"] 8080 5000000000.
Definition writer_alpha : Goroutine float :=
  {| g_host := "alpha"; g_lastLatency := 0%float; g_pc := AtLock Failure |}.
Definition writer_beta : Goroutine float :=
  {| g_host := "beta"; g_lastLatency := 0%float;
     g_pc := AtLock (Success 12%float) |}.
Definition a_tick : ProbeOutcome float * Time := (Failure, TimeAt 5000000000).

(** No latency of the run is a NaN. [ping] returns a duration in
    milliseconds, which never is one. *)
Definition no_nan (ticks : list (ProbeOutcome float * Time)) : bool :=
  forallb (fun r => negb (PrimFloat.is_nan r)) (replies ticks).

(** What the extrema of a host satisfy at every point of a run. *)
Definition bracketed (s : PingStats float) : Prop :=
  PrimFloat.is_nan (MinLatency s) = false /\
  PrimFloat.is_nan (MaxLatency s) = false /\
  ((MinLatency s =? -1)%float = false ->
   (MaxLatency s =? -1)%float = false ->
   (MinLatency s <=? CurrentLatency s)%float = true /\
   (CurrentLatency s <=? MaxLatency s)%float = true).

(** Locking per host, as a property of the step function: once the goroutine
    of one host has taken its lock, the goroutine of another host can still
    take the lock for its own write and [GetStats] can still read. *)
Definition per_host_locking (F : Type) `{Float64Ops F} : Prop :=
  forall (m m1 : Monitor F) (g1 g1' g2 : Goroutine F)
         (o1 o2 : ProbeOutcome F) (tick1 tick2 : ProbeOutcome F * Time),
    g_host g1 <> g_host g2 ->
    g_pc g1 = AtLock o1 ->
    goroutine_step m g1 tick1 = Ran (m1, g1') ->
    g_pc g2 = AtLock o2 ->
    goroutine_step m1 g2 tick2 <> Blocked /\ GetStats m1 <> Blocked.

(** The policy of a baseline that a failed probe resets: after a failed
    probe the baseline is back at its zero value, and the reply that follows
    leaves the jitter as it was. *)
Definition failure_resets_baseline (F : Type) `{Float64Ops F} : Prop :=
  forall (host : string) (ticks : list (ProbeOutcome F * Time))
         (t1 t2 : Time) (r : F),
    lastLatency_of (monitorHost host (ticks ++ [(Failure, t1)])) = f_zero /\
    Jitter (stats_of
              (monitorHost host (ticks ++ [(Failure, t1); (Success r, t2)])))
    = Jitter (stats_of (monitorHost host (ticks ++ [(Failure, t1)]))).

(** The jitter update as triggered by the mere existence of an earlier reply:
    whenever the run has a latest reply, of latency [p], a reply of latency
    [r] sets the jitter to [jitter * 0.9 + |r - p| * 0.1] and becomes the
    baseline. *)
Definition jitter_whenever_previous (F : Type) `{Float64Ops F} : Prop :=
  forall (host : string) (ticks : list (ProbeOutcome F * Time))
         (now : Time) (r p : F),
    last (replies ticks) = Some p ->
    let t := monitorHost host ticks in
    let t' := monitorHost host (ticks ++ [(Success r, now)]) in
    Jitter (stats_of t')
    = (Jitter (stats_of t) ⊗ f_0_9 ⊕ abs_diff r p ⊗ f_0_1)%f64 /\
    lastLatency_of t' = r.

Ltac float_discriminate H :=
  match type of H with
  | ?a = ?b =>
      apply (f_equal (fun x => PrimFloat.eqb x b)) in H;
      vm_compute in H; discriminate H
  end.

(** * Further definitions: what a run has seen *)

Section RunHistory.
Context {F : Type}.

(** The times read by [time.Now()] on the replies of a run, oldest first. *)
Fixpoint reply_times (ticks : list (ProbeOutcome F * Time)) : list Time :=
  match ticks with
  | [] => []
  | (Success _, now) :: ticks => now :: reply_times ticks
  | (Failure, _) :: ticks => reply_times ticks
  end.

End RunHistory.

(** Every latency of the run is at least 0, as a duration in milliseconds
    is. *)
Definition no_negative (ticks : list (ProbeOutcome float * Time)) : bool :=
  forallb (fun r => (0 <=? r)%float) (replies ticks).

(** * Further definitions: the goroutines of a running monitor *)

(** The monitor once [main] has called [Start]: the goroutines of
    [monitorHost], and the number of [GetStats] calls that have taken the read
    lock and have not yet returned. *)
Record System (F : Type) : Type := mkSystem {
  sys_monitor : Monitor F;
  sys_goroutines : list (Goroutine F);
  sys_readers : nat
}.
Arguments mkSystem {F}.
Arguments sys_monitor {F}.
Arguments sys_goroutines {F}.
Arguments sys_readers {F}.

(** What the scheduler lets happen next: the [i]-th goroutine takes a step
    (with the outcome of its probe and the time it reads), a [GetStats] call
    takes the read lock, or a [GetStats] call returns and its deferred
    [RUnlock] runs. *)
Inductive Event (F : Type) : Type :=
| EvStep (i : nat) (tick : ProbeOutcome F * Time) : Event F
| EvRLock : Event F
| EvRUnlock : Event F.
Arguments EvStep {F} i tick.
Arguments EvRLock {F}.
Arguments EvRUnlock {F}.

Section Concurrency.
Context {F : Type} `{Float64Ops F}.

(** [monitor := NewMonitor(hosts, port, interval); monitor.Start()] *)
Definition sys_start (hs : list string) (p i : Z) : System F :=
  {| sys_monitor := NewMonitor hs p i;
     sys_goroutines := Start (NewMonitor hs p i);
     sys_readers := 0 |}.

(** One event. [None] where the event cannot happen in this state: the
    goroutine does not exist, waits for the lock or panics, the read lock is
    not to be had, or no [GetStats] call is under way. *)
Definition sys_step (σ : System F) (e : Event F) : option (System F) :=
  match e with
  | EvStep i tick =>
      match sys_goroutines σ !! i with
      | Some g =>
          match goroutine_step (sys_monitor σ) g tick with
          | Ran (m', g') =>
              Some {| sys_monitor := m';
                      sys_goroutines := <[i := g']> (sys_goroutines σ);
                      sys_readers := sys_readers σ |}
          | Blocked | Panicked => None
          end
      | None => None
      end
  | EvRLock =>
      match rw_RLock (mu (sys_monitor σ)) with
      | Some l =>
          Some {| sys_monitor := with_mu (sys_monitor σ) l;
                  sys_goroutines := sys_goroutines σ;
                  sys_readers := S (sys_readers σ) |}
      | None => None
      end
  | EvRUnlock =>
      match sys_readers σ with
      | O => None
      | S r =>
          Some {| sys_monitor :=
                    with_mu (sys_monitor σ) (rw_RUnlock (mu (sys_monitor σ)));
                  sys_goroutines := sys_goroutines σ;
                  sys_readers := r |}
      end
  end.

(** A schedule, event after event. *)
Fixpoint sys_run (σ : System F) (es : list (Event F)) : option (System F) :=
  match es with
  | [] => Some σ
  | e :: es =>
      match sys_step σ e with
      | Some σ' => sys_run σ' es
      | None => None
      end
  end.

(** The goroutine is between [m.mu.Lock()] and [m.mu.Unlock()]. *)
Definition in_critical (g : Goroutine F) : bool :=
  match g_pc g with
  | InLock _ | AtUnlock => true
  | AtTick | AtLock _ => false
  end.

(** How many goroutines are between [Lock] and [Unlock]. *)
Definition critical (gs : list (Goroutine F)) : nat :=
  length (List.filter in_critical gs).

End Concurrency.

(** A schedule of the monitor of "alpha" and "beta": "alpha" probes, takes
    the lock and updates; "beta" probes meanwhile; "alpha" unlocks; a
    [GetStats] call takes the read lock. *)
Definition a_schedule : list (Event float) :=
  [EvStep 0 (Success 20%float, TimeAt 1);
   EvStep 0 (Success 20%float, TimeAt 2);
   EvStep 1 (Failure, TimeAt 3);
   EvStep 0 (Success 20%float, TimeAt 4);
   EvStep 0 (Success 20%float, TimeAt 5);
   EvRLock].

Section Consistency.
Context {F : Type} `{Float64Ops F}.

(** What the lock, the goroutines and the registry of a running monitor for
    the hosts [hs] have to do with each other. *)
Record consistent (hs : list string) (σ : System F) : Prop := mkConsistent {
  c_readers : readers (mu (sys_monitor σ)) = sys_readers σ;
  c_critical :
    critical (sys_goroutines σ)
    = if writer (mu (sys_monitor σ)) then 1%nat else 0%nat;
  c_excl : writer (mu (sys_monitor σ)) = true -> sys_readers σ = 0%nat;
  c_goroutines : map g_host (sys_goroutines σ) = hs;
  c_hosts : hosts (sys_monitor σ) = hs;
  c_keys : forall h : string, is_Some (stats (sys_monitor σ) !! h) <-> h ∈ hs;
  c_Host : forall (h : string) (s : PingStats F),
      stats (sys_monitor σ) !! h = Some s -> Host s = h
}.

End Consistency.

Section OwnHistory.
Context {F : Type}.

(** The steps of goroutine [j] in a schedule, in order, each with the outcome
    and the time the schedule hands to it. *)
Fixpoint own_events (j : nat) (es : list (Event F))
  : list (ProbeOutcome F * Time) :=
  match es with
  | [] => []
  | EvStep k tick :: es =>
      if Nat.eqb k j then tick :: own_events j es else own_events j es
  | EvRLock :: es => own_events j es
  | EvRUnlock :: es => own_events j es
  end.

(** The loop of [monitorHost] as one goroutine goes through it, without the
    monitor: where the goroutine stands, and the probes whose outcome it has
    applied. A probe is the outcome the goroutine got when it pinged and the
    time it read when it ran the loop body. *)
Definition own_step (st : Pc F * list (ProbeOutcome F * Time))
    (tick : ProbeOutcome F * Time) : Pc F * list (ProbeOutcome F * Time) :=
  match fst st with
  | AtTick => (AtLock (fst tick), snd st)
  | AtLock o => (InLock o, snd st)
  | InLock o => (AtUnlock, snd st ++ [(o, snd tick)])
  | AtUnlock => (AtTick, snd st)
  end.

(** Where a goroutine stands and what it has applied after the steps
    [evs], from the top of its loop. *)
Definition own_history (evs : list (ProbeOutcome F * Time))
  : Pc F * list (ProbeOutcome F * Time) :=
  fold_left own_step evs (AtTick, []).

End OwnHistory.

Section Sequential.
Context {F : Type} `{Float64Ops F}.

(** After the schedule [es], every goroutine stands where its own steps have
    taken it, and finds in the registry, and holds in [lastLatency], what the
    loop of [monitorHost] run on its own produces from the probes it has
    applied itself. *)
Definition sequential (es : list (Event F)) (σ : System F) : Prop :=
  forall (j : nat) (g : Goroutine F),
    sys_goroutines σ !! j = Some g ->
    g_pc g = fst (own_history (own_events j es)) /\
    stats (sys_monitor σ) !! g_host g
    = Some (stats_of (monitorHost (g_host g)
                        (snd (own_history (own_events j es))))) /\
    g_lastLatency g
    = lastLatency_of (monitorHost (g_host g)
                        (snd (own_history (own_events j es)))).

End Sequential.

(** * Further definitions: the HTTP handler and [main] *)

(** What [ServeHTTP] writes: the records handed to the JSON encoder under
    [Content-Type: application/json], the dashboard page under
    [Content-Type: text/html], or the 404 of [http.NotFound]. *)
Inductive Response (F : Type) : Type :=
| JsonStats (records : list (PingStats F)) : Response F
| HtmlPage : Response F
| NotFound : Response F.
Arguments JsonStats {F} records.
Arguments HtmlPage {F}.
Arguments NotFound {F}.

Section Handler.
Context {F : Type} `{Float64Ops F}.

(** [ServeHTTP], by the path of the request URL. *)
Definition ServeHTTP (m : Monitor F) (path : string) : Step (Response F) :=
  if String.eqb path "/api/stats" then
    match GetStats m with
    | Ran records => Ran (JsonStats records)
    | Blocked => Blocked
    | Panicked => Panicked
    end
  else if String.eqb path "/" then Ran HtmlPage
  else Ran NotFound.

End Handler.

(** [strings.Split(s, ",")]: the pieces of [s] between its commas, one more
    than it has commas. *)
Fixpoint Split (s : string) : list string :=
  match s with
  | EmptyString => [EmptyString]
  | String c s' =>
      if Ascii.eqb c ","%char then EmptyString :: Split s'
      else match Split s' with
           | piece :: pieces => String c piece :: pieces
           | [] => [String c EmptyString]
           end
  end.

Fixpoint commas (s : string) : nat :=
  match s with
  | EmptyString => 0
  | String c s' => if Ascii.eqb c ","%char then S (commas s') else commas s'
  end.

Section Main.
Context {F : Type} `{Float64Ops F}.
(** [strings.TrimSpace], of the Go standard library. *)
Variable TrimSpace : string -> string.

(** [main] up to the call of [http.ListenAndServe]: [None] is the
    [log.Fatal] on an empty [-hosts] flag. *)
Definition main (hostsFlag : string) (portFlag intervalFlag : Z)
  : option (System F) :=
  if String.eqb hostsFlag "" then None
  else Some (sys_start (map TrimSpace (Split hostsFlag)) portFlag intervalFlag).

End Main.

Section Counted.
Context {F : Type}.

(** The counters of every entry of the registry are in order and bounded by
    [n]. *)
Definition counted (n : Z) (σ : System F) : Prop :=
  forall (h : string) (s : PingStats F),
    stats (sys_monitor σ) !! h = Some s ->
    0 <= PacketsRecv s <= PacketsSent s /\ PacketsSent s <= n.

End Counted.

(** What the extrema are with respect to the latencies [rs] seen so far. *)
Definition extrema_of (rs : list float) (s : PingStats float) : Prop :=
  match rs with
  | [] => MinLatency s = (-1)%float /\ MaxLatency s = (-1)%float
  | _ :: _ =>
      In (MinLatency s) rs /\ In (MaxLatency s) rs /\
      Forall (fun r => (MinLatency s <=? r)%float = true /\
                       (r <=? MaxLatency s)%float = true) rs
  end.

Ltac cmp_cases :=
  repeat match goal with
  | H : context [Pos.compare_cont Eq ?a ?b] |- _ =>
      change (Pos.compare_cont Eq a b) with (Pos.compare a b) in H
  | |- context [Pos.compare_cont Eq ?a ?b] =>
      change (Pos.compare_cont Eq a b) with (Pos.compare a b)
  end;
  repeat match goal with
  | H : context [Z.compare ?a ?b] |- _ =>
      destruct (Z.compare_spec a b); simpl in H
  | |- context [Z.compare ?a ?b] => destruct (Z.compare_spec a b); simpl
  | H : context [Pos.compare ?a ?b] |- _ =>
      destruct (Pos.compare_spec a b); simpl in H
  | |- context [Pos.compare ?a ?b] => destruct (Pos.compare_spec a b); simpl
  end;
  subst; try discriminate; try reflexivity; try lia.

(** * Properties *)

(** ** Integer counters stay in range *)

Lemma wrap_int_id (z : Z) : int_min <= z <= int_max -> wrap_int z = z.
Proof.
  unfold wrap_int, int_min, int_max. intros Hz.
  rewrite Z.mod_small; lia.
Qed.

Section TrackerFacts.
Context {F : Type} `{Float64Ops F}.
Local Open Scope f64_scope.

Lemma monitorHost_snoc (host : string) ticks tick :
  monitorHost host (ticks ++ [tick])
  = task_step (monitorHost host ticks) tick.
Proof. unfold monitorHost. now rewrite fold_left_app. Qed.

Lemma replies_app (xs ys : list (ProbeOutcome F * Time)) :
  replies (xs ++ ys) = replies xs ++ replies ys.
Proof.
  induction xs as [|[[r|] now] xs IH]; simpl; [reflexivity| |assumption].
  now rewrite IH.
Qed.

Lemma replies_length (ticks : list (ProbeOutcome F * Time)) :
  (length (replies ticks) <= length ticks)%nat.
Proof.
  induction ticks as [|[[r|] now] ticks IH]; simpl; lia.
Qed.

(** The fields of the statistics after one iteration, outcome by outcome. *)

Lemma Apply_Failure s last now :
  Apply s last Failure now
  = (packet_loss (fst (on_error (incr_sent s) last)), last).
Proof. reflexivity. Qed.

Lemma Apply_Success s last r now :
  Apply s last (Success r) now
  = (packet_loss (fst (on_reply (incr_sent s) last r now)), r).
Proof. reflexivity. Qed.

Lemma packet_loss_frame (s : PingStats F) :
  let s' := packet_loss s in
  Host s' = Host s /\ Status s' = Status s /\ LastSeen s' = LastSeen s /\
  PacketsSent s' = PacketsSent s /\ PacketsRecv s' = PacketsRecv s /\
  AvgLatency s' = AvgLatency s /\ MinLatency s' = MinLatency s /\
  MaxLatency s' = MaxLatency s /\ CurrentLatency s' = CurrentLatency s /\
  Jitter s' = Jitter s.
Proof.
  unfold packet_loss. destruct (PacketsSent s >? 0)%Z; simpl; repeat split.
Qed.

Lemma Apply_PacketsSent s last o now :
  PacketsSent (fst (Apply s last o now)) = wrap_int (PacketsSent s + 1).
Proof.
  destruct o; [rewrite Apply_Success | rewrite Apply_Failure]; simpl;
    unfold packet_loss; simpl;
    destruct (wrap_int (PacketsSent s + 1) >? 0)%Z; reflexivity.
Qed.

Lemma Apply_PacketsRecv s last o now :
  PacketsRecv (fst (Apply s last o now))
  = match o with
    | Success _ => wrap_int (PacketsRecv s + 1)
    | Failure => PacketsRecv s
    end.
Proof.
  destruct o; [rewrite Apply_Success | rewrite Apply_Failure]; simpl;
    unfold packet_loss; simpl;
    destruct (wrap_int (PacketsSent s + 1) >? 0)%Z; reflexivity.
Qed.

Lemma Apply_PacketLoss s last o now :
  let s' := fst (Apply s last o now) in
  PacketLoss s'
  = if (PacketsSent s' >? 0)%Z then
      f_of_int (wrap_int (PacketsSent s' - PacketsRecv s'))
      ⊘ f_of_int (PacketsSent s') ⊗ f_100
    else PacketLoss s.
Proof.
  destruct o; [rewrite Apply_Success | rewrite Apply_Failure]; simpl;
    unfold packet_loss; simpl;
    destruct (wrap_int (PacketsSent s + 1) >? 0)%Z eqn:E; simpl;
    rewrite ?E; reflexivity.
Qed.

Lemma Apply_Status s last o now :
  Status (fst (Apply s last o now))
  = match o with Success _ => "up" | Failure => "down" end.
Proof.
  destruct o; [rewrite Apply_Success | rewrite Apply_Failure]; simpl;
    unfold packet_loss; simpl;
    destruct (wrap_int (PacketsSent s + 1) >? 0)%Z; reflexivity.
Qed.

(** While fewer than [2^63] ticks have fired, the two counters count the
    probes made and the replies received. *)
Lemma counters (host : string) (ticks : list (ProbeOutcome F * Time)) :
  Z.of_nat (length ticks) <= int_max ->
  PacketsSent (stats_of (monitorHost host ticks)) = Z.of_nat (length ticks) /\
  PacketsRecv (stats_of (monitorHost host ticks))
  = Z.of_nat (length (replies ticks)).
Proof.
  induction ticks as [|tick ticks IH] using rev_ind; intros Hlen.
  - split; reflexivity.
  - rewrite length_app in Hlen. simpl in Hlen.
    destruct IH as [IHs IHr]; [lia|].
    rewrite monitorHost_snoc. unfold task_step.
    destruct (Apply _ _ _ _) as [s' l'] eqn:E. simpl.
    pose proof (Apply_PacketsSent (stats_of (monitorHost host ticks))
                  (lastLatency_of (monitorHost host ticks))
                  (fst tick) (snd tick)) as Hs.
    pose proof (Apply_PacketsRecv (stats_of (monitorHost host ticks))
                  (lastLatency_of (monitorHost host ticks))
                  (fst tick) (snd tick)) as Hr.
    rewrite E in Hs, Hr. simpl in Hs, Hr.
    pose proof (replies_length ticks) as Hle.
    rewrite Hs, Hr, IHs, IHr, replies_app, !length_app.
    destruct tick as [[r|] now]; simpl.
    + split; rewrite wrap_int_id; unfold int_min, int_max in *; lia.
    + split; [rewrite wrap_int_id; unfold int_min, int_max in *; lia | lia].
Qed.

End TrackerFacts.

(** ** Counters *)

(** C5: for every sequence of probe outcomes (shorter than the range of the
    64-bit counters), [PacketsRecv <= PacketsSent] holds after every
    iteration: [PacketsSent] counts every probe of the run and [PacketsRecv]
    counts its replies only, since an iteration increments [PacketsSent]
    whatever the outcome and [PacketsRecv] on a reply only. *)
Theorem recv_le_sent {F : Type} `{Float64Ops F}
    (host : string) (ticks : list (ProbeOutcome F * Time)) :
  Z.of_nat (length ticks) <= int_max ->
  let s := stats_of (monitorHost host ticks) in
  PacketsRecv s <= PacketsSent s /\
  PacketsSent s = Z.of_nat (length ticks) /\
  PacketsRecv s = Z.of_nat (length (replies ticks)) /\
  (forall (s0 : PingStats F) (l : F) (o : ProbeOutcome F) (now : Time),
     PacketsSent (fst (Apply s0 l o now)) = wrap_int (PacketsSent s0 + 1) /\
     PacketsRecv (fst (Apply s0 l o now))
     = match o with
       | Success _ => wrap_int (PacketsRecv s0 + 1)
       | Failure => PacketsRecv s0
       end).
Proof.
  intros Hlen s. subst s.
  destruct (counters host ticks Hlen) as [Hs Hr].
  pose proof (replies_length ticks).
  rewrite Hs, Hr. repeat split; try lia.
  - apply Apply_PacketsSent.
  - apply Apply_PacketsRecv.
Qed.

Lemma recv_le_sent_witness :
  Z.of_nat (length three_probes) <= int_max /\
  PacketsRecv (stats_of (monitorHost "example.org" three_probes))
  <= PacketsSent (stats_of (monitorHost "example.org" three_probes)).
Proof.
  assert (Hlen : Z.of_nat (length three_probes) <= int_max)
    by (vm_compute; discriminate).
  split; [exact Hlen|].
  exact (proj1 (recv_le_sent "example.org" three_probes Hlen)).
Defined.

(** ** Frame of a failed probe *)

(** C7: an iteration whose probe failed changes [PacketsSent], [Status] (to
    "down") and [PacketLoss] only: [MinLatency], [MaxLatency], [AvgLatency],
    [CurrentLatency], [Jitter], [LastSeen], [PacketsRecv] and [Host] keep
    their values, and [CurrentLatency] keeps its value over any number of
    failed probes in a row. *)
Theorem failure_frame {F : Type} `{Float64Ops F}
    (s : PingStats F) (last : F) (now : Time) :
  let s' := fst (Apply s last Failure now) in
  (Status s' = "down" /\
   PacketsSent s' = wrap_int (PacketsSent s + 1)) /\
  (MinLatency s' = MinLatency s /\ MaxLatency s' = MaxLatency s /\
   AvgLatency s' = AvgLatency s /\ CurrentLatency s' = CurrentLatency s /\
   Jitter s' = Jitter s /\ LastSeen s' = LastSeen s /\
   PacketsRecv s' = PacketsRecv s /\ Host s' = Host s) /\
  (forall (t : HostTask) (nows : list Time),
     CurrentLatency
       (stats_of (fold_left task_step (map (fun n => (Failure, n)) nows) t))
     = CurrentLatency (stats_of t)).
Proof.
  intros s'. subst s'. rewrite Apply_Failure. cbn [fst].
  pose proof (packet_loss_frame (fst (on_error (incr_sent s) last))) as Hf.
  cbv zeta in Hf. destruct Hf as (Hh & Hst & Hls & Hps & Hpr & Ha & Hmi & Hma & Hc & Hj).
  split; [|split].
  - rewrite Hst, Hps. split; reflexivity.
  - rewrite Hmi, Hma, Ha, Hc, Hj, Hls, Hpr, Hh. repeat split.
  - intros t nows. revert t.
    induction nows as [|n nows IH]; intros t; [reflexivity|].
    cbn [map fold_left]. rewrite IH. unfold task_step. cbn [fst snd].
    rewrite Apply_Failure. cbn [stats_of].
    pose proof (packet_loss_frame
                  (fst (on_error (incr_sent (stats_of t)) (lastLatency_of t))))
      as Hf'.
    cbv zeta in Hf'. destruct Hf' as (_ & _ & _ & _ & _ & _ & _ & _ & Hc' & _).
    rewrite Hc'. reflexivity.
Qed.

(** ** Packet loss *)

Section PacketLossFacts.
Context {F : Type} `{Float64Ops F}.
Local Open Scope f64_scope.

Lemma PacketLoss_after_tick (host : string) ticks tick :
  Z.of_nat (length (ticks ++ [tick])) <= int_max ->
  let s := stats_of (monitorHost host (ticks ++ [tick])) in
  (0 < PacketsSent s)%Z /\
  PacketLoss s
  = f_of_int (PacketsSent s - PacketsRecv s) ⊘ f_of_int (PacketsSent s)
    ⊗ f_100.
Proof.
  intros Hlen s.
  destruct (counters host (ticks ++ [tick]) Hlen) as [Hs Hr].
  pose proof (replies_length (ticks ++ [tick])) as Hle.
  assert (Hpos : (0 < PacketsSent s)%Z).
  { subst s. rewrite Hs, length_app. simpl. lia. }
  split; [exact Hpos|].
  subst s. rewrite monitorHost_snoc in *. unfold task_step in *.
  destruct (Apply _ _ _ _) as [s' l'] eqn:E. cbn [stats_of] in *.
  pose proof (Apply_PacketLoss (stats_of (monitorHost host ticks))
                (lastLatency_of (monitorHost host ticks))
                (fst tick) (snd tick)) as Hp.
  cbv zeta in Hp. rewrite E in Hp. cbn [fst] in Hp.
  rewrite Hp.
  destruct (PacketsSent s' >? 0)%Z eqn:G; [|lia].
  rewrite wrap_int_id; [reflexivity|].
  rewrite Hs, Hr. unfold int_min, int_max in *. lia.
Qed.

End PacketLossFacts.

Lemma app_not_nil {A : Type} (xs : list A) (x : A) :
  exists y ys, xs ++ [x] = y :: ys.
Proof. destruct xs as [|y ys]; simpl; eauto. Qed.

(** C4: after every iteration [PacketLoss] is
    [float64(PacketsSent - PacketsRecv) / float64(PacketsSent) * 100],
    evaluated in binary64 as the source writes it, with [PacketsSent > 0] so
    that the division has a non-zero divisor; before the first iteration
    [PacketsSent] is 0 and [PacketLoss] is 0, which is not a NaN. *)
Theorem packet_loss_formula
    (host : string) (ticks : list (ProbeOutcome float * Time)) :
  Z.of_nat (length ticks) <= int_max ->
  let s := stats_of (monitorHost host ticks) in
  match ticks with
  | [] =>
      PacketsSent s = 0 /\ PacketLoss s = 0%float /\
      PrimFloat.is_nan (PacketLoss s) = false
  | _ :: _ =>
      0 < PacketsSent s /\
      PacketLoss s
      = (float_of_int (PacketsSent s - PacketsRecv s)
         / float_of_int (PacketsSent s) * 100)%float
  end.
Proof.
  intros Hlen s. subst s.
  destruct ticks as [|tick ticks] using rev_ind.
  - repeat split.
  - clear IHticks.
    destruct (app_not_nil ticks tick) as (y & ys & E).
    pose proof (PacketLoss_after_tick host ticks tick Hlen) as Hp.
    rewrite E in *. exact Hp.
Qed.

Lemma packet_loss_formula_witness :
  Z.of_nat (length three_probes) <= int_max /\
  PacketLoss (stats_of (monitorHost "example.org" three_probes))
  = (float_of_int (3 - 2) / float_of_int 3 * 100)%float.
Proof.
  assert (Hlen : Z.of_nat (length three_probes) <= int_max)
    by (vm_compute; discriminate).
  split; [exact Hlen|].
  exact (proj2 (packet_loss_formula "example.org" three_probes Hlen)).
Defined.

(** ** The registry *)

Section RegistryFacts.
Context {F : Type} `{Float64Ops F}.

Lemma fold_insert_lookup (hs : list string)
    (st : gmap string (PingStats F)) (h : string) :
  fold_left (fun st host => <[host := newPingStats host]> st) hs st !! h
  = if decide (h ∈ hs) then Some (newPingStats h) else st !! h.
Proof.
  revert st. induction hs as [|a hs IH]; intros st; simpl.
  - destruct (decide (h ∈ [])) as [Hin|_]; [|reflexivity].
    now apply elem_of_nil in Hin.
  - rewrite IH.
    destruct (decide (h ∈ hs)) as [Hin|Hnin].
    + rewrite decide_True by (now apply elem_of_cons; right). reflexivity.
    + destruct (decide (h = a)) as [->|Hne].
      * rewrite decide_True by (apply elem_of_cons; now left).
        apply lookup_insert_eq.
      * rewrite decide_False; [now apply lookup_insert_ne|].
        intros [?|?]%elem_of_cons; congruence.
Qed.

Lemma NewMonitor_lookup (hs : list string) (p i : Z) (h : string) :
  stats (NewMonitor (F := F) hs p i) !! h
  = if decide (h ∈ hs) then Some (newPingStats h) else None.
Proof.
  unfold NewMonitor. cbn [stats]. rewrite fold_insert_lookup.
  destruct (decide (h ∈ hs)); [reflexivity | apply lookup_empty].
Qed.

(** Every record of the registry carries the key it is stored under. *)
Lemma NewMonitor_Host (hs : list string) (p i : Z) :
  map Host (map snd (map_to_list (stats (NewMonitor (F := F) hs p i))))
  = map fst (map_to_list (stats (NewMonitor (F := F) hs p i))).
Proof.
  rewrite map_map. apply map_ext_in. intros [k v] Hin. simpl.
  apply list_elem_of_In, elem_of_map_to_list in Hin.
  rewrite NewMonitor_lookup in Hin.
  destruct (decide (k ∈ hs)); [|discriminate].
  injection Hin as <-. reflexivity.
Qed.

Lemma NewMonitor_keys (hs : list string) (p i : Z) :
  map fst (map_to_list (stats (NewMonitor (F := F) hs p i)))
  ≡ₚ remove_dups hs.
Proof.
  apply NoDup_Permutation.
  - apply (NoDup_fst_map_to_list (stats (NewMonitor (F := F) hs p i))).
  - apply NoDup_remove_dups.
  - intros k. rewrite elem_of_remove_dups.
    change (map fst ?l) with (fst <$> l).
    rewrite list_elem_of_fmap. split.
    + intros ([k' v] & -> & Hin). simpl.
      apply elem_of_map_to_list in Hin.
      rewrite NewMonitor_lookup in Hin.
      destruct (decide (k' ∈ hs)); [assumption | discriminate].
    + intros Hin. exists (k, newPingStats k). split; [reflexivity|].
      apply elem_of_map_to_list. rewrite NewMonitor_lookup.
      now rewrite decide_True.
Qed.

(** One whole iteration of a goroutine that takes the lock at once is
    [Apply] on the entry of its host. *)
Lemma goroutine_iteration (m : Monitor F) (host : string) (l : F)
    (s : PingStats F) (o : ProbeOutcome F) (now : Time) :
  mu m = rw_unlocked ->
  stats m !! host = Some s ->
  let g0 := {| g_host := host; g_lastLatency := l; g_pc := AtTick |} in
  let m' := with_stats m (<[host := fst (Apply s l o now)]> (stats m)) in
  let g' := {| g_host := host; g_lastLatency := snd (Apply s l o now);
               g_pc := AtTick |} in
  exists m1 g1 m2 g2 m3 g3,
    goroutine_step m g0 (o, now) = Ran (m1, g1) /\
    goroutine_step m1 g1 (o, now) = Ran (m2, g2) /\
    goroutine_step m2 g2 (o, now) = Ran (m3, g3) /\
    goroutine_step m3 g3 (o, now) = Ran (m', g').
Proof.
  intros Hmu Hs g0 m' g'. subst g0 m' g'.
  eexists _, _, _, _, _, _. split; [|split; [|split]].
  - reflexivity.
  - unfold goroutine_step. cbn [g_pc]. rewrite Hmu. reflexivity.
  - unfold goroutine_step. cbn [g_pc g_host g_lastLatency stats with_mu fst snd].
    rewrite Hs, (surjective_pairing (Apply s l o now)). reflexivity.
  - unfold goroutine_step, with_mu, with_stats, rw_Unlock. cbn.
    rewrite Hmu. reflexivity.
Qed.

End RegistryFacts.

(** ** Status *)

Lemma Status_run {F : Type} `{Float64Ops F}
    (host : string) (ticks : list (ProbeOutcome F * Time)) :
  Status (stats_of (monitorHost host ticks))
  = match last ticks with
    | None => "unknown"
    | Some (Success _, _) => "up"
    | Some (Failure, _) => "down"
    end.
Proof.
  destruct ticks as [|tick ticks _] using rev_ind; [reflexivity|].
  rewrite last_snoc, monitorHost_snoc. unfold task_step.
  pose proof (Apply_Status (stats_of (monitorHost host ticks))
                (lastLatency_of (monitorHost host ticks))
                (fst tick) (snd tick)) as Hst.
  destruct (Apply _ _ _ _) as [s' l']. cbn [fst stats_of] in *.
  rewrite Hst. destruct tick as [[r|] now]; reflexivity.
Qed.

(** C9: the entry [NewMonitor] makes for every configured host has status
    "unknown", [MinLatency] and [MaxLatency] at the sentinel [-1] and
    [PacketLoss] 0; every iteration with a reply sets the status to "up" and
    every iteration with a failed probe sets it to "down", so that the status
    of a host is "unknown" exactly as long as no probe has completed. *)
Theorem status_lifecycle {F : Type} `{Float64Ops F}
    (host : string) (ticks : list (ProbeOutcome F * Time)) :
  (let s0 := newPingStats host in
   Status s0 = "unknown" /\ MinLatency s0 = f_neg1 /\
   MaxLatency s0 = f_neg1 /\ PacketLoss s0 = f_zero) /\
  (forall (hs : list string) (p i : Z),
     Forall (fun h => stats (NewMonitor (F := F) hs p i) !! h
                      = Some (newPingStats h)) hs) /\
  (forall (s : PingStats F) (l : F) (o : ProbeOutcome F) (now : Time),
     Status (fst (Apply s l o now))
     = match o with Success _ => "up" | Failure => "down" end) /\
  Status (stats_of (monitorHost host ticks))
  = match last ticks with
    | None => "unknown"
    | Some (Success _, _) => "up"
    | Some (Failure, _) => "down"
    end /\
  (Status (stats_of (monitorHost host ticks)) = "unknown" <-> ticks = []).
Proof.
  split; [repeat split|]. split; [|split; [|split]].
  - intros hs p i. apply Forall_forall. intros h Hin.
    rewrite NewMonitor_lookup. now rewrite decide_True.
  - intros s l o now. apply Apply_Status.
  - apply Status_run.
  - rewrite Status_run. split.
    + destruct ticks as [|tick ticks _] using rev_ind; [reflexivity|].
      rewrite last_snoc. destruct tick as [[r|] now]; discriminate.
    + intros ->. reflexivity.
Qed.

(** ** Duplicated hosts *)

(** The deferred [RUnlock] of [GetStats] undoes its [RLock]. *)
Lemma RLock_RUnlock (l l' : RWMutex) :
  rw_RLock l = Some l' -> rw_RUnlock l' = l.
Proof.
  unfold rw_RLock, rw_RUnlock. destruct l as [w n]. cbn.
  destruct w; [discriminate|]. intros [= <-]. reflexivity.
Qed.

(** A host configured twice: two entries, three goroutines, two of them
    writing the entry of "alpha". *)
Example alpha_twice :
  let m := NewMonitor (F := float) ["alpha"; "beta"; "alpha"] 8080 5000000000 in
  size (stats m) = 2%nat /\
  length (Start m) = 3%nat /\
  length (List.filter (fun g => String.eqb (g_host g) "alpha") (Start m))
  = 2%nat.
Proof. vm_compute. repeat split. Qed.

Lemma Start_count {F : Type} `{Float64Ops F} (m : Monitor F) (h : string) :
  length (List.filter (fun g => String.eqb (g_host g) h) (Start m))
  = count_occ string_dec (hosts m) h.
Proof.
  unfold Start. induction (hosts m) as [|a hs IH]; [reflexivity|].
  cbn [map List.filter count_occ g_host].
  destruct (string_dec a h) as [->|Hne].
  - rewrite String.eqb_refl. cbn [length]. now rewrite IH.
  - apply String.eqb_neq in Hne. rewrite Hne. exact IH.
Qed.

(** C10: the registry [NewMonitor] builds has one entry per distinct string
    of the configured list, however often the string occurs in it (an entry
    written again holds the same initial record), so [GetStats] returns one
    record per distinct host; [Start] launches one goroutine per entry of the
    list, so the entry of a host is written by as many goroutines as the
    host has occurrences in the list. *)
Theorem duplicate_hosts {F : Type} `{Float64Ops F}
    (hs : list string) (p i : Z) :
  let m := NewMonitor (F := F) hs p i in
  (forall h : string,
     stats m !! h = if decide (h ∈ hs) then Some (newPingStats h) else None) /\
  size (stats m) = length (remove_dups hs) /\
  (exists records : list (PingStats F),
     GetStats m = Ran records /\
     length records = length (remove_dups hs) /\
     map Host records ≡ₚ remove_dups hs) /\
  map g_host (Start m) = hs /\
  (forall h : string,
     length (List.filter (fun g => String.eqb (g_host g) h) (Start m))
     = count_occ string_dec hs h).
Proof.
  intros m.
  assert (Hperm : map Host (map snd (map_to_list (stats m))) ≡ₚ remove_dups hs).
  { subst m. rewrite NewMonitor_Host. apply NewMonitor_keys. }
  assert (Hlen : length (map_to_list (stats m)) = length (remove_dups hs)).
  { rewrite <- (Permutation_length Hperm). now rewrite !length_map. }
  split; [|split; [|split; [|split]]].
  - intros h. apply NewMonitor_lookup.
  - rewrite <- Hlen. unfold size, map_size.
    now rewrite length_map_to_list.
  - exists (map snd (map_to_list (stats m))). split; [reflexivity|].
    split; [now rewrite length_map | exact Hperm].
  - subst m. unfold Start. cbn [hosts NewMonitor].
    rewrite map_map. cbn [g_host]. apply map_id.
  - intros h. apply (Start_count m h).
Qed.

(** ** Locking *)

(** C2, as stated, fails: with hosts "alpha" and "beta", once the goroutine of
    "alpha" holds the lock, the goroutine of "beta" and [GetStats] both wait,
    because [monitorHost] and [GetStats] lock the one [mu] of the [Monitor]. *)
Lemma per_host_locking_fails :
  ~ per_host_locking float /\
  (exists m1 g1',
     goroutine_step two_hosts writer_alpha a_tick = Ran (m1, g1') /\
     goroutine_step m1 writer_beta a_tick = Blocked /\
     GetStats m1 = Blocked).
Proof.
  assert (Hex : exists m1 g1',
     goroutine_step two_hosts writer_alpha a_tick = Ran (m1, g1') /\
     goroutine_step m1 writer_beta a_tick = Blocked /\
     GetStats m1 = Blocked).
  { eexists _, _. split; [reflexivity|]. split; reflexivity. }
  split; [|exact Hex].
  intros Hclaim. destruct Hex as (m1 & g1' & Hstep & Hblocked & _).
  assert (Hne : g_host writer_alpha <> g_host writer_beta) by discriminate.
  destruct (Hclaim two_hosts m1 writer_alpha g1' writer_beta
              Failure (Success 12%float) a_tick a_tick
              Hne eq_refl Hstep eq_refl) as [Hgo _].
  exact (Hgo Hblocked).
Qed.

(** C2, amended: the statistics of all hosts are guarded by the single
    reader/writer lock of the [Monitor]. Once a goroutine has taken it for its
    update, the goroutine of any other host that wants to update and every
    [GetStats] wait; they can go on when the lock is released. The probe
    itself is made before the lock is taken and never waits for it. *)
Theorem one_lock_for_all_hosts {F : Type} `{Float64Ops F}
    (m m1 : Monitor F) (g1 g1' g2 : Goroutine F)
    (o1 o2 : ProbeOutcome F) (tick1 tick2 : ProbeOutcome F * Time) :
  g_pc g1 = AtLock o1 ->
  goroutine_step m g1 tick1 = Ran (m1, g1') ->
  g_pc g2 = AtLock o2 ->
  (g_pc g1' = InLock o1 /\ writer (mu m1) = true) /\
  (goroutine_step m1 g2 tick2 = Blocked /\ GetStats m1 = Blocked) /\
  (forall st : gmap string (PingStats F),
     let released := with_mu (with_stats m1 st) (rw_Unlock (mu m1)) in
     (exists m3 g3, goroutine_step released g2 tick2 = Ran (m3, g3)) /\
     (exists records, GetStats released = Ran records)) /\
  (forall (m' : Monitor F) (host : string) (l : F)
          (tick : ProbeOutcome F * Time),
     goroutine_step m'
       {| g_host := host; g_lastLatency := l; g_pc := AtTick |} tick
     = Ran (m', {| g_host := host; g_lastLatency := l;
                   g_pc := AtLock (fst tick) |})).
Proof.
  intros Hpc1 Hstep Hpc2.
  unfold goroutine_step in Hstep. rewrite Hpc1 in Hstep.
  unfold rw_Lock in Hstep.
  destruct (writer (mu m)) eqn:Hw; [discriminate|].
  destruct (Nat.eqb (readers (mu m)) 0) eqn:Hr; [|discriminate].
  cbn in Hstep. injection Hstep as <- <-.
  apply Nat.eqb_eq in Hr.
  split; [split; reflexivity|]. split; [|split].
  - split.
    + unfold goroutine_step. rewrite Hpc2. reflexivity.
    + reflexivity.
  - intros st released. subst released. split.
    + unfold goroutine_step. rewrite Hpc2.
      unfold rw_Lock, rw_Unlock. cbn. rewrite Hr. cbn. eauto.
    + unfold GetStats. cbn. eauto.
  - intros m' host l tick. reflexivity.
Qed.

Lemma one_lock_for_all_hosts_witness :
  let m1 := with_mu two_hosts {| writer := true; readers := 0 |} in
  let g1' := {| g_host := "alpha"; g_lastLatency := 0%float;
                g_pc := InLock Failure |} in
  goroutine_step two_hosts writer_alpha a_tick = Ran (m1, g1') /\
  goroutine_step m1 writer_beta a_tick = Blocked /\
  GetStats m1 = Blocked.
Proof.
  intros m1 g1'.
  assert (Hstep : goroutine_step two_hosts writer_alpha a_tick = Ran (m1, g1'))
    by reflexivity.
  split; [exact Hstep|].
  exact (proj1 (proj2 (one_lock_for_all_hosts two_hosts m1 writer_alpha g1'
                         writer_beta Failure (Success 12%float) a_tick a_tick
                         eq_refl Hstep eq_refl))).
Defined.

(** ** Jitter *)

Section JitterFacts.
Context {F : Type} `{Float64Ops F}.
Local Open Scope f64_scope.

Lemma Apply_Jitter s l o now :
  Jitter (fst (Apply s l o now))
  = match o with
    | Success r => next_jitter (Jitter s) l r
    | Failure => Jitter s
    end.
Proof.
  destruct o; [rewrite Apply_Success | rewrite Apply_Failure]; simpl;
    unfold packet_loss; simpl;
    destruct (wrap_int (PacketsSent s + 1) >? 0)%Z; reflexivity.
Qed.

Lemma Apply_lastLatency s l o now :
  snd (Apply s l o now) = match o with Success r => r | Failure => l end.
Proof. destruct o; reflexivity. Qed.

Lemma task_step_Jitter t tick :
  Jitter (stats_of (task_step t tick))
  = match fst tick with
    | Success r => next_jitter (Jitter (stats_of t)) (lastLatency_of t) r
    | Failure => Jitter (stats_of t)
    end.
Proof.
  unfold task_step.
  pose proof (Apply_Jitter (stats_of t) (lastLatency_of t) (fst tick) (snd tick)).
  destruct (Apply _ _ _ _). assumption.
Qed.

Lemma task_step_lastLatency t tick :
  lastLatency_of (task_step t tick)
  = match fst tick with Success r => r | Failure => lastLatency_of t end.
Proof.
  unfold task_step.
  pose proof (Apply_lastLatency (stats_of t) (lastLatency_of t)
                (fst tick) (snd tick)).
  destruct (Apply _ _ _ _). assumption.
Qed.

(** The baseline of a run is the latency of its latest reply, whatever
    failed probes came after it, and 0 as long as there was no reply. *)
Lemma lastLatency_run (host : string) (ticks : list (ProbeOutcome F * Time)) :
  lastLatency_of (monitorHost host ticks)
  = default f_zero (last (replies ticks)).
Proof.
  induction ticks as [|tick ticks IH] using rev_ind; [reflexivity|].
  rewrite monitorHost_snoc, task_step_lastLatency, replies_app.
  destruct tick as [[r|] now]; cbn [fst replies].
  - now rewrite last_snoc.
  - now rewrite app_nil_r.
Qed.

End JitterFacts.

(** C1, as stated, fails: after a reply of 40 ms and a failed probe the
    baseline is still 40, and the reply of 60 ms that follows moves the
    jitter from 0 to 2. *)
Lemma failure_resets_baseline_fails :
  ~ failure_resets_baseline float /\
  (let down := monitorHost "example.org"
                 [(Success 40%float, TimeAt 1); (Failure, TimeAt 2)] in
   let back := monitorHost "example.org"
                 [(Success 40%float, TimeAt 1); (Failure, TimeAt 2);
                  (Success 60%float, TimeAt 3)] in
   lastLatency_of down = 40%float /\
   Jitter (stats_of down) = 0%float /\
   Jitter (stats_of back) = 2%float).
Proof.
  split; [|repeat split].
  intros Hclaim.
  destruct (Hclaim "example.org" [(Success 40%float, TimeAt 1)]
              (TimeAt 2) (TimeAt 3) 60%float) as [Hl _].
  vm_compute in Hl. float_discriminate Hl.
Qed.

(** C1, amended: a failed probe leaves the baseline of the jitter untouched:
    it stays the latency of the latest reply, or 0 when there was none. The
    first reply after a failed probe therefore updates the jitter against the
    latency of the last reply before the failure, whenever that latency is
    above 0, and stores its own latency as the new baseline. *)
Theorem failure_keeps_baseline {F : Type} `{Float64Ops F}
    (host : string) (ticks : list (ProbeOutcome F * Time))
    (t1 t2 : Time) (r : F) :
  let before := monitorHost host ticks in
  let down := monitorHost host (ticks ++ [(Failure, t1)]) in
  let back := monitorHost host (ticks ++ [(Failure, t1); (Success r, t2)]) in
  lastLatency_of before = default f_zero (last (replies ticks)) /\
  lastLatency_of down = lastLatency_of before /\
  Jitter (stats_of down) = Jitter (stats_of before) /\
  Jitter (stats_of back)
  = (if (lastLatency_of before ≻ f_zero)%f64
     then (Jitter (stats_of before) ⊗ f_0_9
           ⊕ abs_diff r (lastLatency_of before) ⊗ f_0_1)%f64
     else Jitter (stats_of before)) /\
  lastLatency_of back = r.
Proof.
  intros before down back.
  assert (Hdown : down = task_step before (Failure, t1))
    by apply monitorHost_snoc.
  assert (Hback : back = task_step down (Success r, t2)).
  { subst back down.
    change [(Failure, t1); (Success r, t2)]
      with ([(@Failure F, t1)] ++ [(Success r, t2)]).
    rewrite app_assoc. apply monitorHost_snoc. }
  split; [apply lastLatency_run|].
  assert (Hl : lastLatency_of down = lastLatency_of before)
    by (rewrite Hdown, task_step_lastLatency; reflexivity).
  assert (Hj : Jitter (stats_of down) = Jitter (stats_of before))
    by (rewrite Hdown, task_step_Jitter; reflexivity).
  repeat split; try assumption.
  - rewrite Hback, task_step_Jitter. cbn [fst]. now rewrite Hl, Hj.
  - rewrite Hback, task_step_lastLatency. reflexivity.
Qed.

(** C8, as stated, fails: after a reply of 0 ms, a reply of 20 ms leaves the
    jitter at 0 where the formula gives 2, because the loop takes a baseline
    of 0 for the absence of an earlier reply. *)
Lemma jitter_whenever_previous_fails :
  ~ jitter_whenever_previous float /\
  (let t := monitorHost "example.org" [(Success 0%float, TimeAt 1)] in
   let t' := monitorHost "example.org"
               [(Success 0%float, TimeAt 1); (Success 20%float, TimeAt 2)] in
   last (replies [(Success 0%float, TimeAt 1)]) = Some 0%float /\
   Jitter (stats_of t') = 0%float /\
   (Jitter (stats_of t) ⊗ f_0_9 ⊕ abs_diff 20%float 0%float ⊗ f_0_1)%f64
   = 2%float).
Proof.
  split; [|repeat split].
  intros Hclaim.
  destruct (Hclaim "example.org" [(Success 0%float, TimeAt 1)]
              (TimeAt 2) 20%float 0%float eq_refl) as [Hj _].
  vm_compute in Hj. float_discriminate Hj.
Qed.

(** C8, amended: a reply of latency [r] sets the jitter to
    [jitter * 0.9 + |r - previous| * 0.1] whenever the latency of the latest
    earlier reply is above 0, leaves it untouched otherwise, and in both cases
    becomes the new baseline; after exactly one reply the jitter is still at
    its initial value 0, and after replies of 40 ms and 60 ms it is 2. *)
Theorem jitter_update
    (host : string) (ticks : list (ProbeOutcome float * Time))
    (now : Time) (r : float) :
  let t := monitorHost host ticks in
  let t' := monitorHost host (ticks ++ [(Success r, now)]) in
  lastLatency_of t = default 0%float (last (replies ticks)) /\
  Jitter (stats_of t')
  = (if (0 <? lastLatency_of t)%float
     then (Jitter (stats_of t) * 0.9
           + abs_diff r (lastLatency_of t) * 0.1)%float
     else Jitter (stats_of t)) /\
  lastLatency_of t' = r /\
  (forall n1 : Time,
     Jitter (stats_of (monitorHost host [(Success r, n1)])) = 0%float) /\
  (forall n1 n2 : Time,
     Jitter (stats_of (monitorHost host [(Success 40%float, n1);
                                         (Success 60%float, n2)]))
     = 2%float).
Proof.
  intros t t'.
  assert (Ht' : t' = task_step t (Success r, now)) by apply monitorHost_snoc.
  split; [exact (lastLatency_run host ticks)|].
  split; [rewrite Ht', task_step_Jitter; reflexivity|].
  split; [rewrite Ht', task_step_lastLatency; reflexivity|].
  split.
  - intros n1. unfold monitorHost. cbn [fold_left].
    rewrite task_step_Jitter. reflexivity.
  - intros n1 n2. unfold monitorHost. cbn [fold_left].
    rewrite task_step_Jitter, task_step_lastLatency. cbn [fst].
    rewrite task_step_Jitter. reflexivity.
Qed.

(** ** Average latency *)

Section AverageFacts.
Context {F : Type} `{Float64Ops F}.
Local Open Scope f64_scope.

Lemma Apply_AvgLatency s l o now :
  AvgLatency (fst (Apply s l o now))
  = match o with
    | Success r =>
        if (wrap_int (PacketsRecv s + 1) =? 1)%Z then r
        else (AvgLatency s
              ⊗ f_of_int (wrap_int (wrap_int (PacketsRecv s + 1) - 1)) ⊕ r)
             ⊘ f_of_int (wrap_int (PacketsRecv s + 1))
    | Failure => AvgLatency s
    end.
Proof.
  destruct o; [rewrite Apply_Success | rewrite Apply_Failure]; simpl;
    unfold packet_loss; simpl;
    destruct (wrap_int (PacketsSent s + 1) >? 0)%Z; reflexivity.
Qed.

Lemma f_sum_snoc (l : list F) (r : F) : f_sum (l ++ [r]) = f_sum l ⊕ r.
Proof. unfold f_sum. now rewrite fold_left_app. Qed.

End AverageFacts.

(** The running average is not, bit for bit, the mean obtained by summing the
    latencies and dividing by their number: after replies of 4, 4, 4, 4, 4,
    4, 5 and 1 ms it is 3.7500000000000004 (the seventh average, 29/7, is
    rounded, and so is its product with 7), one unit in the last place above
    the mean 3.75. The two can agree up to a rounding error only, which
    needs the real value of every rounded operation to be stated. *)
Example avg_one_ulp_above_mean :
  AvgLatency (stats_of (monitorHost "example.org" eight_replies))
  = 3.7500000000000004%float /\
  mean (replies eight_replies) = 3.75%float /\
  (3.7500000000000004 =? 3.75)%float = false.
Proof. repeat split. Qed.

(** ** Extrema *)

Section ExtremaFacts.
Context {F : Type} `{Float64Ops F}.
Local Open Scope f64_scope.

Lemma Apply_extrema s l o now :
  let s' := fst (Apply s l o now) in
  MinLatency s'
  = match o with
    | Success r =>
        if (MinLatency s ≐ f_neg1) || (r ≺ MinLatency s) then r
        else MinLatency s
    | Failure => MinLatency s
    end /\
  MaxLatency s'
  = match o with
    | Success r => if r ≻ MaxLatency s then r else MaxLatency s
    | Failure => MaxLatency s
    end /\
  CurrentLatency s'
  = match o with Success r => r | Failure => CurrentLatency s end.
Proof.
  destruct o; [rewrite Apply_Success | rewrite Apply_Failure]; simpl;
    unfold packet_loss; simpl;
    destruct (wrap_int (PacketsSent s + 1) >? 0)%Z; repeat split.
Qed.

End ExtremaFacts.

(** Comparisons of binary64 values that are not NaN, from the specification
    of the primitive operations. *)

Lemma SFcompare_swap (x y : spec_float) :
  SFcompare y x = option_map CompOpp (SFcompare x y).
Proof.
  destruct x as [sx|sx| |sx mx ex], y as [sy|sy| |sy my ey]; simpl;
    try reflexivity;
    try (destruct sx; reflexivity); try (destruct sy; reflexivity);
    try (destruct sx, sy; reflexivity).
  destruct sx, sy; try reflexivity; simpl;
    rewrite (Z.compare_antisym ex ey);
    destruct (ex ?= ey)%Z; simpl; try reflexivity;
    rewrite (Pos.compare_cont_antisym mx my Eq); reflexivity.
Qed.

Lemma SFcompare_None (x y : spec_float) :
  SFcompare x y = None -> x = S754_nan \/ y = S754_nan.
Proof.
  destruct x as [sx|sx| |sx mx ex], y as [sy|sy| |sy my ey]; simpl;
    intros E; try discriminate; auto.
Qed.

Lemma is_nan_false (x : float) :
  PrimFloat.is_nan x = false -> Prim2SF x <> S754_nan.
Proof.
  unfold PrimFloat.is_nan. rewrite FloatAxioms.eqb_spec.
  intros E Hn. rewrite Hn in E. discriminate.
Qed.

Lemma float_leb_refl (x : float) :
  PrimFloat.is_nan x = false -> (x <=? x)%float = true.
Proof.
  unfold PrimFloat.is_nan.
  rewrite FloatAxioms.eqb_spec, FloatAxioms.leb_spec. unfold SFeqb, SFleb.
  destruct (SFcompare _ _) as [[]|]; simpl; congruence.
Qed.

Lemma float_ltb_false_leb (x y : float) :
  PrimFloat.is_nan x = false -> PrimFloat.is_nan y = false ->
  (x <? y)%float = false -> (y <=? x)%float = true.
Proof.
  intros Hx%is_nan_false Hy%is_nan_false.
  rewrite FloatAxioms.ltb_spec, FloatAxioms.leb_spec. unfold SFltb, SFleb.
  rewrite (SFcompare_swap (Prim2SF x) (Prim2SF y)).
  destruct (SFcompare (Prim2SF x) (Prim2SF y)) as [[]|] eqn:E; simpl;
    try congruence.
  destruct (SFcompare_None _ _ E); contradiction.
Qed.

Lemma bracketed_reply (s : PingStats float) (l r : float) (now : Time) :
  PrimFloat.is_nan (MinLatency s) = false ->
  PrimFloat.is_nan (MaxLatency s) = false ->
  PrimFloat.is_nan r = false ->
  let s' := fst (Apply s l (Success r) now) in
  PrimFloat.is_nan (MinLatency s') = false /\
  PrimFloat.is_nan (MaxLatency s') = false /\
  CurrentLatency s' = r /\
  (MinLatency s' <=? r)%float = true /\
  (r <=? MaxLatency s')%float = true.
Proof.
  intros Hmin Hmax Hr s'.
  destruct (Apply_extrema s l (Success r) now) as (Emin & Emax & Ecur).
  fold s' in Emin, Emax, Ecur. rewrite Emin, Emax, Ecur.
  change (f_eqb (F := float)) with PrimFloat.eqb.
  change (f_ltb (F := float)) with PrimFloat.ltb.
  destruct (MinLatency s =? f_neg1)%float; cbn [orb];
    [|destruct (r <? MinLatency s)%float eqn:Elt];
    (destruct (MaxLatency s <? r)%float eqn:Egt);
    repeat split;
    auto using float_leb_refl, float_ltb_false_leb.
Qed.

Lemma bracketed_run (host : string) (ticks : list (ProbeOutcome float * Time)) :
  no_nan ticks = true -> bracketed (stats_of (monitorHost host ticks)).
Proof.
  unfold no_nan.
  induction ticks as [|tick ticks IH] using rev_ind; intros Hn.
  - repeat split; intros; discriminate.
  - rewrite replies_app, forallb_app in Hn.
    apply andb_true_iff in Hn as [Hn Hr].
    specialize (IH Hn). destruct IH as (Hmin & Hmax & Hbr).
    rewrite monitorHost_snoc. unfold task_step.
    destruct tick as [[r|] now]; cbn [fst snd].
    + cbn in Hr. rewrite andb_true_r in Hr. apply negb_true_iff in Hr.
      pose proof (bracketed_reply (stats_of (monitorHost host ticks))
                    (lastLatency_of (monitorHost host ticks)) r now
                    Hmin Hmax Hr) as Hb.
      cbv zeta in Hb. destruct (Apply _ _ _ _) as [s' l'].
      cbn [fst stats_of] in *.
      destruct Hb as (Hmin' & Hmax' & Hcur & Hle & Hge).
      unfold bracketed. rewrite Hcur. repeat split; assumption.
    + destruct (Apply_extrema (stats_of (monitorHost host ticks))
                  (lastLatency_of (monitorHost host ticks)) Failure now)
        as (Emin & Emax & Ecur).
      destruct (Apply _ _ _ _) as [s' l']. cbn [fst stats_of] in *.
      unfold bracketed. rewrite Emin, Emax, Ecur.
      repeat split; try assumption; now apply Hbr.
Qed.

(** C6: over a run whose latencies are numbers, whenever [MinLatency] and
    [MaxLatency] are both set (neither is the sentinel [-1]),
    [MinLatency <= CurrentLatency <= MaxLatency] holds after every iteration;
    and right after a reply of latency [r], [CurrentLatency] is [r] and
    [MinLatency <= r <= MaxLatency] holds. *)
Theorem extrema_bracket_current
    (host : string) (ticks : list (ProbeOutcome float * Time)) :
  no_nan ticks = true ->
  let s := stats_of (monitorHost host ticks) in
  ((MinLatency s =? -1)%float = false ->
   (MaxLatency s =? -1)%float = false ->
   (MinLatency s <=? CurrentLatency s)%float = true /\
   (CurrentLatency s <=? MaxLatency s)%float = true) /\
  (forall (r : float) (now : Time),
     PrimFloat.is_nan r = false ->
     let s' := stats_of (monitorHost host (ticks ++ [(Success r, now)])) in
     CurrentLatency s' = r /\
     (MinLatency s' <=? r)%float = true /\
     (r <=? MaxLatency s')%float = true).
Proof.
  intros Hn s.
  destruct (bracketed_run host ticks Hn) as (Hmin & Hmax & Hbr).
  split; [exact Hbr|].
  intros r now Hr s'. subst s'.
  rewrite monitorHost_snoc. unfold task_step. cbn [fst snd].
  pose proof (bracketed_reply (stats_of (monitorHost host ticks))
                (lastLatency_of (monitorHost host ticks)) r now
                Hmin Hmax Hr) as Hb.
  cbv zeta in Hb. destruct (Apply _ _ _ _) as [s' l'].
  cbn [fst stats_of] in *.
  destruct Hb as (_ & _ & Hcur & Hle & Hge). repeat split; assumption.
Qed.

Lemma extrema_bracket_current_witness :
  no_nan three_probes = true /\
  (let s := stats_of (monitorHost "example.org" three_probes) in
   (MinLatency s =? -1)%float = false /\
   (MaxLatency s =? -1)%float = false /\
   (MinLatency s <=? CurrentLatency s)%float = true /\
   (CurrentLatency s <=? MaxLatency s)%float = true).
Proof.
  assert (Hn : no_nan three_probes = true) by reflexivity.
  split; [exact Hn|].
  intros s.
  assert (Hmin : (MinLatency s =? -1)%float = false) by reflexivity.
  assert (Hmax : (MaxLatency s =? -1)%float = false) by reflexivity.
  split; [exact Hmin|]. split; [exact Hmax|].
  exact (proj1 (extrema_bracket_current "example.org" three_probes Hn)
           Hmin Hmax).
Defined.

(** * Further properties of a run *)

Section LatestReplyFacts.
Context {F : Type} `{Float64Ops F}.

Lemma reply_times_app (xs ys : list (ProbeOutcome F * Time)) :
  reply_times (xs ++ ys) = reply_times xs ++ reply_times ys.
Proof.
  induction xs as [|[[r|] now] xs IH]; simpl; [reflexivity| |assumption].
  now rewrite IH.
Qed.

Lemma Apply_identity s l o now :
  let s' := fst (Apply s l o now) in
  Host s' = Host s /\
  LastSeen s' = match o with Success _ => now | Failure => LastSeen s end.
Proof.
  destruct o; [rewrite Apply_Success | rewrite Apply_Failure]; simpl;
    unfold packet_loss; simpl;
    destruct (wrap_int (PacketsSent s + 1) >? 0)%Z; repeat split.
Qed.

End LatestReplyFacts.

(** X1: after any run of the polling loop, [LastSeen] is the time read on the
    most recent reply (the zero time while there has been none),
    [CurrentLatency] is the latency of that reply (0 while there has been
    none) and coincides with the local [lastLatency], and [Host] is still the
    host the entry was created for. *)
Theorem latest_reply {F : Type} `{Float64Ops F}
    (host : string) (ticks : list (ProbeOutcome F * Time)) :
  let t := monitorHost host ticks in
  LastSeen (stats_of t) = default TimeZero (last (reply_times ticks)) /\
  CurrentLatency (stats_of t) = default f_zero (last (replies ticks)) /\
  lastLatency_of t = CurrentLatency (stats_of t) /\
  Host (stats_of t) = host.
Proof.
  intros t. subst t.
  assert (Hall :
    LastSeen (stats_of (monitorHost host ticks))
    = default TimeZero (last (reply_times ticks)) /\
    CurrentLatency (stats_of (monitorHost host ticks))
    = default f_zero (last (replies ticks)) /\
    Host (stats_of (monitorHost host ticks)) = host).
  { induction ticks as [|tick ticks IH] using rev_ind; [repeat split|].
    destruct IH as (IHl & IHc & IHh).
    rewrite monitorHost_snoc, replies_app, reply_times_app. unfold task_step.
    pose proof (Apply_identity (stats_of (monitorHost host ticks))
                  (lastLatency_of (monitorHost host ticks))
                  (fst tick) (snd tick)) as Hi.
    pose proof (Apply_extrema (stats_of (monitorHost host ticks))
                  (lastLatency_of (monitorHost host ticks))
                  (fst tick) (snd tick)) as He.
    cbv zeta in Hi, He. destruct (Apply _ _ _ _) as [s' l'].
    cbn [fst stats_of] in *.
    destruct Hi as (Hh & Hl). destruct He as (_ & _ & Hc).
    rewrite Hh, Hl, Hc.
    destruct tick as [[r|] now]; cbn [fst snd replies reply_times].
    - rewrite !last_snoc. repeat split. exact IHh.
    - rewrite !app_nil_r. repeat split; assumption. }
  destruct Hall as (Hl & Hc & Hh).
  repeat split; try assumption.
  rewrite Hc. apply lastLatency_run.
Qed.

(** ** The extrema are the least and the greatest reply *)

Lemma SFcompare_lt_trans (x y z : spec_float) (c : comparison) :
  SFcompare x y = Some Lt -> SFcompare y z = Some c -> c <> Gt ->
  SFcompare x z = Some Lt.
Proof.
  destruct x as [sx|sx| |sx mx ex], y as [sy|sy| |sy my ey],
           z as [sz|sz| |sz mz ez]; simpl; intros H1 H2 Hc;
    try discriminate;
    repeat match goal with b : bool |- _ => destruct b end;
    simpl in *; try discriminate; try reflexivity;
    try (injection H2 as <-; congruence);
    injection H1 as H1; injection H2 as H2; f_equal;
    cmp_cases; try congruence.
Qed.

Lemma SFcompare_le_lt_trans (x y z : spec_float) (c : comparison) :
  SFcompare x y = Some c -> c <> Gt -> SFcompare y z = Some Lt ->
  SFcompare x z = Some Lt.
Proof.
  destruct x as [sx|sx| |sx mx ex], y as [sy|sy| |sy my ey],
           z as [sz|sz| |sz mz ez]; simpl; intros H1 Hc H2;
    try discriminate;
    repeat match goal with b : bool |- _ => destruct b end;
    simpl in *; try discriminate; try reflexivity;
    try (injection H1 as <-; congruence);
    injection H1 as H1; injection H2 as H2; f_equal;
    cmp_cases; try congruence.
Qed.

Lemma float_lt_le_trans (x y z : float) :
  (x <? y)%float = true -> (y <=? z)%float = true -> (x <? z)%float = true.
Proof.
  rewrite !FloatAxioms.ltb_spec, FloatAxioms.leb_spec. unfold SFltb, SFleb.
  destruct (SFcompare (Prim2SF x) (Prim2SF y)) as [[]|] eqn:E1; try discriminate.
  destruct (SFcompare (Prim2SF y) (Prim2SF z)) as [c|] eqn:E2; try discriminate.
  intros _ Hc.
  rewrite (SFcompare_lt_trans _ _ _ c E1 E2); [reflexivity|].
  destruct c; discriminate.
Qed.

Lemma float_le_lt_trans (x y z : float) :
  (x <=? y)%float = true -> (y <? z)%float = true -> (x <? z)%float = true.
Proof.
  rewrite !FloatAxioms.ltb_spec, FloatAxioms.leb_spec. unfold SFltb, SFleb.
  destruct (SFcompare (Prim2SF x) (Prim2SF y)) as [c|] eqn:E1; try discriminate.
  destruct (SFcompare (Prim2SF y) (Prim2SF z)) as [[]|] eqn:E2; try discriminate.
  intros Hc _.
  rewrite (SFcompare_le_lt_trans _ _ _ c E1); [reflexivity| |exact E2].
  destruct c; discriminate.
Qed.

Lemma float_ltb_leb (x y : float) :
  (x <? y)%float = true -> (x <=? y)%float = true.
Proof.
  rewrite FloatAxioms.ltb_spec, FloatAxioms.leb_spec. unfold SFltb, SFleb.
  destruct (SFcompare _ _) as [[]|]; congruence.
Qed.

Lemma float_ltb_not_eqb (x y : float) :
  (x <? y)%float = true -> (y =? x)%float = false.
Proof.
  rewrite FloatAxioms.ltb_spec, FloatAxioms.eqb_spec. unfold SFltb, SFeqb.
  rewrite (SFcompare_swap (Prim2SF x) (Prim2SF y)).
  destruct (SFcompare _ _) as [[]|]; simpl; congruence.
Qed.

Lemma SFcompare_refl (x : spec_float) :
  x <> S754_nan -> SFcompare x x = Some Eq.
Proof.
  destruct x as [s|s| |s m e]; simpl; intros Hx; try congruence.
  - destruct s; reflexivity.
  - rewrite Z.compare_refl.
    change (Pos.compare_cont Eq m m) with (Pos.compare m m).
    rewrite Pos.compare_refl. destruct s; reflexivity.
Qed.

Lemma float_leb_not_nan (x y : float) :
  (x <=? y)%float = true ->
  PrimFloat.is_nan x = false /\ PrimFloat.is_nan y = false.
Proof.
  rewrite FloatAxioms.leb_spec. unfold SFleb, PrimFloat.is_nan.
  rewrite !FloatAxioms.eqb_spec. unfold SFeqb. intros Hle.
  assert (Hx : Prim2SF x <> S754_nan)
    by (intros E; rewrite E in Hle; discriminate).
  assert (Hy : Prim2SF y <> S754_nan).
  { intros E. rewrite E in Hle. destruct (Prim2SF x); discriminate. }
  now rewrite !SFcompare_refl.
Qed.

Lemma extrema_of_reply (rs : list float) (s : PingStats float)
    (l r : float) (now : Time) :
  (0 <=? r)%float = true ->
  forallb (fun r => (0 <=? r)%float) rs = true ->
  extrema_of rs s ->
  extrema_of (rs ++ [r]) (fst (Apply s l (Success r) now)).
Proof.
  intros Hr Hrs Hex.
  destruct (float_leb_not_nan _ _ Hr) as [_ Hnr].
  assert (Hneg : (-1 <? r)%float = true)
    by (apply (float_lt_le_trans _ 0%float); [reflexivity | exact Hr]).
  destruct (Apply_extrema s l (Success r) now) as (Emin & Emax & _).
  cbv zeta in Emin, Emax.
  change (f_eqb (F := float)) with PrimFloat.eqb in Emin.
  change (f_ltb (F := float)) with PrimFloat.ltb in Emin, Emax.
  change (f_neg1 (F := float)) with (-1)%float in Emin.
  destruct rs as [|r0 rs].
  - destruct Hex as [Hmin Hmax]. cbn [app]. unfold extrema_of.
    rewrite Emin, Emax, Hmin, Hmax. cbn. rewrite Hneg.
    repeat split; try (now left).
    constructor; [|constructor].
    split; apply float_leb_refl; exact Hnr.
  - destruct Hex as (Hin & Hax & Hall).
    change ((r0 :: rs) ++ [r]) with (r0 :: (rs ++ [r])).
    unfold extrema_of.
    change (r0 :: (rs ++ [r])) with ((r0 :: rs) ++ [r]).
    assert (Hmin0 : (0 <=? MinLatency s)%float = true).
    { rewrite forallb_forall in Hrs. apply Hrs. exact Hin. }
    assert (Hmax0 : (0 <=? MaxLatency s)%float = true).
    { rewrite forallb_forall in Hrs. apply Hrs. exact Hax. }
    destruct (float_leb_not_nan _ _ Hmin0) as [_ Hnmin].
    destruct (float_leb_not_nan _ _ Hmax0) as [_ Hnmax].
    assert (Eset : (MinLatency s =? -1)%float = false).
    { apply float_ltb_not_eqb.
      apply (float_lt_le_trans _ 0%float); [reflexivity | exact Hmin0]. }
    rewrite Eset in Emin. cbn [orb] in Emin.
    rewrite Emin, Emax.
    split; [|split].
    + destruct (r <? MinLatency s)%float;
        apply in_or_app; [right; now left | left; exact Hin].
    + destruct (MaxLatency s <? r)%float;
        apply in_or_app; [right; now left | left; exact Hax].
    + apply Forall_app. split.
      * apply List.Forall_forall. intros x Hx.
        rewrite List.Forall_forall in Hall. destruct (Hall x Hx) as [Hlo Hhi].
        split.
        -- destruct (r <? MinLatency s)%float eqn:Elt; [|exact Hlo].
           apply float_ltb_leb.
           apply (float_lt_le_trans _ (MinLatency s)); assumption.
        -- destruct (MaxLatency s <? r)%float eqn:Egt; [|exact Hhi].
           apply float_ltb_leb.
           apply (float_le_lt_trans _ (MaxLatency s)); assumption.
      * constructor; [|constructor]. split.
        -- destruct (r <? MinLatency s)%float eqn:Elt.
           ++ apply float_leb_refl; exact Hnr.
           ++ apply float_ltb_false_leb; assumption.
        -- destruct (MaxLatency s <? r)%float eqn:Egt.
           ++ apply float_leb_refl; exact Hnr.
           ++ apply float_ltb_false_leb; assumption.
Qed.

(** X2: over a run whose latencies are all at least 0, [MinLatency] and
    [MaxLatency] are both at the sentinel [-1] as long as there has been no
    reply, and from the first reply on they are latencies of the run,
    [MinLatency] at most every latency of the run and [MaxLatency] at least
    every one. *)
Theorem extrema_least_and_greatest
    (host : string) (ticks : list (ProbeOutcome float * Time)) :
  no_negative ticks = true ->
  let s := stats_of (monitorHost host ticks) in
  match replies ticks with
  | [] => MinLatency s = (-1)%float /\ MaxLatency s = (-1)%float
  | _ :: _ =>
      In (MinLatency s) (replies ticks) /\
      In (MaxLatency s) (replies ticks) /\
      Forall (fun r => (MinLatency s <=? r)%float = true /\
                       (r <=? MaxLatency s)%float = true) (replies ticks)
  end.
Proof.
  intros Hn s. subst s. unfold no_negative in Hn.
  change (extrema_of (replies ticks) (stats_of (monitorHost host ticks))).
  induction ticks as [|tick ticks IH] using rev_ind; [split; reflexivity|].
  rewrite replies_app, forallb_app in Hn.
  apply andb_true_iff in Hn as [Hn Hr]. specialize (IH Hn).
  rewrite monitorHost_snoc, replies_app. unfold task_step.
  destruct tick as [[r|] now]; cbn [fst snd replies].
  - cbn in Hr. rewrite andb_true_r in Hr.
    pose proof (extrema_of_reply (replies ticks)
                  (stats_of (monitorHost host ticks))
                  (lastLatency_of (monitorHost host ticks)) r now
                  Hr Hn IH) as Hex.
    destruct (Apply _ _ _ _) as [s' l']. exact Hex.
  - rewrite app_nil_r.
    destruct (Apply_extrema (stats_of (monitorHost host ticks))
                (lastLatency_of (monitorHost host ticks)) Failure now)
      as (Emin & Emax & _).
    destruct (Apply _ _ _ _) as [s' l']. cbn [fst stats_of] in *.
    unfold extrema_of in *. rewrite Emin, Emax. exact IH.
Qed.

Lemma extrema_least_and_greatest_witness :
  no_negative three_probes = true /\
  MinLatency (stats_of (monitorHost "example.org" three_probes)) = 30%float /\
  In (MinLatency (stats_of (monitorHost "example.org" three_probes)))
     (replies three_probes).
Proof.
  assert (Hn : no_negative three_probes = true) by reflexivity.
  split; [exact Hn|]. split; [reflexivity|].
  exact (proj1 (extrema_least_and_greatest "example.org" three_probes Hn)).
Defined.

(** * The goroutines of a running monitor *)

Section ConcurrencyFacts.
Context {F : Type} `{Float64Ops F}.

Lemma critical_insert (gs : list (Goroutine F)) (i : nat) (g g' : Goroutine F) :
  gs !! i = Some g ->
  (critical (<[i := g']> gs) + (if in_critical g then 1 else 0)
   = critical gs + (if in_critical g' then 1 else 0))%nat.
Proof.
  unfold critical. revert i.
  induction gs as [|a gs IH]; intros i Hi; [discriminate|].
  destruct i as [|i]; cbn in Hi |- *.
  - injection Hi as ->.
    destruct (in_critical g), (in_critical g'); cbn; lia.
  - specialize (IH i Hi). destruct (in_critical a); cbn; [f_equal|]; exact IH.
Qed.

Lemma critical_pos (gs : list (Goroutine F)) :
  (0 < critical gs)%nat ->
  exists i g, gs !! i = Some g /\ in_critical g = true.
Proof.
  unfold critical. induction gs as [|a gs IH]; cbn; [lia|].
  destruct (in_critical a) eqn:E.
  - intros _. exists 0%nat, a. split; [reflexivity | exact E].
  - intros Hpos. destruct (IH Hpos) as (i & g & Hi & Hg).
    exists (S i), g. split; assumption.
Qed.

Lemma critical_Start (m : Monitor F) : critical (Start m) = 0%nat.
Proof.
  unfold Start, critical. induction (hosts m) as [|a hs IH]; [reflexivity|].
  cbn. exact IH.
Qed.

Lemma g_host_insert (gs : list (Goroutine F)) (i : nat) (g g' : Goroutine F) :
  gs !! i = Some g -> g_host g' = g_host g ->
  map g_host (<[i := g']> gs) = map g_host gs.
Proof.
  revert i. induction gs as [|a gs IH]; intros i Hi Hh; [reflexivity|].
  destruct i as [|i]; cbn in Hi |- *.
  - injection Hi as ->. f_equal. exact Hh.
  - f_equal. exact (IH i Hi Hh).
Qed.

Lemma Apply_Host (s : PingStats F) (l : F) (o : ProbeOutcome F) (now : Time) :
  Host (fst (Apply s l o now)) = Host s.
Proof. apply (Apply_identity s l o now). Qed.

(** What a step of a goroutine that runs does, program point by program
    point. *)
Lemma goroutine_step_Ran (m m' : Monitor F) (g g' : Goroutine F)
    (tick : ProbeOutcome F * Time) :
  goroutine_step m g tick = Ran (m', g') ->
  g_host g' = g_host g /\
  match g_pc g with
  | AtTick =>
      m' = m /\ g_pc g' = AtLock (fst tick) /\
      g_lastLatency g' = g_lastLatency g
  | AtLock o =>
      writer (mu m) = false /\ readers (mu m) = 0%nat /\
      m' = with_mu m {| writer := true; readers := 0 |} /\
      g_pc g' = InLock o /\ g_lastLatency g' = g_lastLatency g
  | InLock o =>
      exists s, stats m !! g_host g = Some s /\
        m' = with_stats m
               (<[g_host g := fst (Apply s (g_lastLatency g) o (snd tick))]>
                  (stats m)) /\
        g_pc g' = AtUnlock /\
        g_lastLatency g' = snd (Apply s (g_lastLatency g) o (snd tick))
  | AtUnlock =>
      m' = with_mu m (rw_Unlock (mu m)) /\ g_pc g' = AtTick /\
      g_lastLatency g' = g_lastLatency g
  end.
Proof.
  unfold goroutine_step. destruct (g_pc g) as [|o|o|].
  - intros [= <- <-]. repeat split.
  - unfold rw_Lock. destruct (writer (mu m)) eqn:Hw; [discriminate|].
    destruct (Nat.eqb (readers (mu m)) 0) eqn:Hr; [|discriminate].
    apply Nat.eqb_eq in Hr. cbn. rewrite Hr. intros [= <- <-]. repeat split.
  - destruct (stats m !! g_host g) as [s|] eqn:Hs; [|discriminate].
    rewrite (surjective_pairing (Apply s (g_lastLatency g) o (snd tick))).
    intros [= <- <-]. split; [reflexivity|]. exists s. repeat split.
  - intros [= <- <-]. repeat split.
Qed.

Lemma consistent_start (hs : list string) (p i : Z) :
  consistent hs (sys_start hs p i).
Proof.
  assert (Hl : forall h : string,
             stats (NewMonitor (F := F) hs p i) !! h
             = if decide (h ∈ hs) then Some (newPingStats h) else None)
    by apply NewMonitor_lookup.
  split; unfold sys_start; cbn [sys_monitor sys_goroutines sys_readers].
  - reflexivity.
  - exact (critical_Start (NewMonitor hs p i)).
  - discriminate.
  - unfold Start. cbn [hosts NewMonitor]. rewrite map_map.
    cbn [g_host]. apply map_id.
  - reflexivity.
  - intros h. rewrite Hl.
    destruct (decide (h ∈ hs)); split; intros Hx;
      [assumption | eauto | now destruct Hx | contradiction].
  - intros h s. rewrite Hl.
    destruct (decide (h ∈ hs)); [|discriminate].
    intros [= <-]. reflexivity.
Qed.

Lemma consistent_step (hs : list string) (σ σ' : System F) (e : Event F) :
  consistent hs σ -> sys_step σ e = Some σ' -> consistent hs σ'.
Proof.
  intros [Hr Hc Hx Hg Hh Hk HH] Hstep.
  destruct σ as [m gs n]. cbn in *.
  destruct e as [i tick| |]; cbn in Hstep.
  - destruct (gs !! i) as [g|] eqn:Hi; [|discriminate].
    destruct (goroutine_step m g tick) as [[m' g']| |] eqn:Hs;
      try discriminate.
    injection Hstep as <-.
    destruct (goroutine_step_Ran m m' g g' tick Hs) as [Hhost Hpc].
    pose proof (critical_insert gs i g g' Hi) as Hci.
    unfold critical in Hci, Hc |- *. unfold in_critical at 2 4 in Hci.
    destruct (g_pc g) as [|o|o|] eqn:Epc.
    + destruct Hpc as (-> & Epc' & _). rewrite Epc' in Hci. cbn in Hci.
      split; cbn; try assumption.
      * rewrite <- Hc. lia.
      * now rewrite (g_host_insert gs i g g' Hi Hhost).
    + destruct Hpc as (Hw & Hrd & -> & Epc' & _). rewrite Epc' in Hci. cbn in Hci.
      rewrite Hw in Hc.
      split; cbn; try assumption.
      * congruence.
      * lia.
      * intros _. congruence.
      * now rewrite (g_host_insert gs i g g' Hi Hhost).
    + destruct Hpc as (s & Hlook & -> & Epc' & _). rewrite Epc' in Hci. cbn in Hci.
      split; cbn; try assumption.
      * rewrite <- Hc. lia.
      * now rewrite (g_host_insert gs i g g' Hi Hhost).
      * intros h. rewrite <- Hk.
        destruct (decide (h = g_host g)) as [->|Hne].
        -- rewrite lookup_insert_eq, Hlook. split; eauto.
        -- now rewrite lookup_insert_ne.
      * intros h s'.
        destruct (decide (h = g_host g)) as [->|Hne].
        -- rewrite lookup_insert_eq. intros [= <-].
           rewrite Apply_Host. now apply HH.
        -- rewrite lookup_insert_ne by congruence. apply HH.
    + destruct Hpc as (-> & Epc' & _). rewrite Epc' in Hci. cbn in Hci.
      assert (Hw : writer (mu m) = true).
      { destruct (writer (mu m)); [reflexivity|]. lia. }
      rewrite Hw in Hc.
      split; cbn; try assumption.
      * lia.
      * discriminate.
      * now rewrite (g_host_insert gs i g g' Hi Hhost).
  - unfold rw_RLock in Hstep.
    destruct (writer (mu m)) eqn:Hw; [discriminate|].
    injection Hstep as <-.
    split; cbn; try assumption.
    + now rewrite Hr.
    + discriminate.
  - destruct n as [|n]; [discriminate|]. injection Hstep as <-.
    assert (Hw : writer (mu m) = false).
    { destruct (writer (mu m)); [|reflexivity]. now specialize (Hx eq_refl). }
    split; cbn; try assumption.
    + now rewrite Hr.
    + rewrite Hw. discriminate.
Qed.

Lemma consistent_run (hs : list string) (es : list (Event F))
    (σ σ' : System F) :
  consistent hs σ -> sys_run σ es = Some σ' -> consistent hs σ'.
Proof.
  revert σ. induction es as [|e es IH]; intros σ Hc Hrun; cbn in Hrun.
  - now injection Hrun as <-.
  - destruct (sys_step σ e) as [σ1|] eqn:Hs; [|discriminate].
    exact (IH σ1 (consistent_step hs σ σ1 e Hc Hs) Hrun).
Qed.

End ConcurrencyFacts.

Section ReachableFacts.
Context {F : Type} `{Float64Ops F}.

Lemma critical_member (gs : list (Goroutine F)) (i : nat) (g : Goroutine F) :
  gs !! i = Some g -> in_critical g = true -> (0 < critical gs)%nat.
Proof.
  unfold critical. revert i.
  induction gs as [|a gs IH]; intros i Hi Hg; [discriminate|].
  destruct i as [|i]; cbn in Hi |- *.
  - injection Hi as ->. rewrite Hg. cbn. lia.
  - specialize (IH i Hi Hg). destruct (in_critical a); cbn; lia.
Qed.

Lemma critical_two (gs : list (Goroutine F)) (i j : nat) (gi gj : Goroutine F) :
  gs !! i = Some gi -> gs !! j = Some gj ->
  in_critical gi = true -> in_critical gj = true ->
  i <> j -> (2 <= critical gs)%nat.
Proof.
  revert i j. induction gs as [|a gs IH]; intros i j Hi Hj Hgi Hgj Hne;
    [discriminate|].
  destruct i as [|i], j as [|j]; cbn in Hi, Hj; try congruence.
  - injection Hi as ->.
    pose proof (critical_member gs j gj Hj Hgj) as Hpos.
    unfold critical in *. cbn. rewrite Hgi. cbn. lia.
  - injection Hj as ->.
    pose proof (critical_member gs i gi Hi Hgi) as Hpos.
    unfold critical in *. cbn. rewrite Hgj. cbn. lia.
  - assert (Hne' : i <> j) by congruence.
    specialize (IH i j Hi Hj Hgi Hgj Hne').
    unfold critical in *. cbn. destruct (in_critical a); cbn; lia.
Qed.

(** The records of a consistent registry, read by their [Host] field, are the
    configured hosts without repetition. *)
Lemma consistent_records (hs : list string) (σ : System F) :
  consistent hs σ ->
  map Host (map snd (map_to_list (stats (sys_monitor σ)))) ≡ₚ remove_dups hs.
Proof.
  intros Hc.
  assert (E : map Host (map snd (map_to_list (stats (sys_monitor σ))))
              = map fst (map_to_list (stats (sys_monitor σ)))).
  { rewrite map_map. apply map_ext_in. intros [k v] Hin. cbn.
    apply list_elem_of_In, elem_of_map_to_list in Hin.
    exact (c_Host hs σ Hc k v Hin). }
  rewrite E. apply NoDup_Permutation.
  - apply (NoDup_fst_map_to_list (stats (sys_monitor σ))).
  - apply NoDup_remove_dups.
  - intros k. rewrite elem_of_remove_dups, <- (c_keys hs σ Hc k).
    change (map fst ?l) with (fst <$> l).
    rewrite list_elem_of_fmap. split.
    + intros ([k' v] & -> & Hin). cbn.
      apply elem_of_map_to_list in Hin. eauto.
    + intros [v Hv]. exists (k, v). split; [reflexivity|].
      now apply elem_of_map_to_list.
Qed.

End ReachableFacts.

(** ** Mutual exclusion *)

(** X3: whatever the schedule, at most one goroutine is between
    [m.mu.Lock()] and [m.mu.Unlock()], the lock is held for writing exactly
    when one is, no goroutine is in there while a [GetStats] call holds the
    read lock, and the reader count of the lock is the number of [GetStats]
    calls under way. *)
Theorem mutual_exclusion {F : Type} `{Float64Ops F}
    (hs : list string) (p i : Z) (es : list (Event F)) (σ : System F) :
  sys_run (sys_start hs p i) es = Some σ ->
  (forall (j k : nat) (gj gk : Goroutine F),
     sys_goroutines σ !! j = Some gj -> sys_goroutines σ !! k = Some gk ->
     in_critical gj = true -> in_critical gk = true -> j = k) /\
  (critical (sys_goroutines σ) = 1%nat
   <-> writer (mu (sys_monitor σ)) = true) /\
  ((0 < sys_readers σ)%nat -> critical (sys_goroutines σ) = 0%nat) /\
  readers (mu (sys_monitor σ)) = sys_readers σ.
Proof.
  intros Hrun.
  pose proof (consistent_run hs es _ σ (consistent_start hs p i) Hrun) as Hc.
  destruct Hc as [Hr Hcr Hx _ _ _ _].
  split; [|split; [|split]].
  - intros j k gj gk Hj Hk Hgj Hgk.
    destruct (decide (j = k)) as [|Hne]; [assumption|].
    pose proof (critical_two _ j k gj gk Hj Hk Hgj Hgk Hne) as H2.
    rewrite Hcr in H2. destruct (writer (mu (sys_monitor σ))); lia.
  - rewrite Hcr. destruct (writer (mu (sys_monitor σ))); split; congruence.
  - intros Hpos. rewrite Hcr.
    destruct (writer (mu (sys_monitor σ))); [|reflexivity].
    specialize (Hx eq_refl). lia.
  - exact Hr.
Qed.

Lemma mutual_exclusion_witness :
  exists σ : System float,
    sys_run (sys_start ["alpha"; "beta"] 8080 5000000000) a_schedule = Some σ /\
    readers (mu (sys_monitor σ)) = sys_readers σ.
Proof.
  eexists. split.
  - vm_compute. reflexivity.
  - refine (proj2 (proj2 (proj2
      (mutual_exclusion ["alpha"; "beta"] 8080 5000000000 a_schedule _ _)))).
    vm_compute. reflexivity.
Defined.

(** ** The registry of a running monitor *)

(** X4: whatever the schedule, the registry keeps exactly the configured
    hosts as its keys, every record keeps the [Host] of its key, and there is
    still one goroutine per entry of the configured list, in its order. *)
Theorem registry_fixed {F : Type} `{Float64Ops F}
    (hs : list string) (p i : Z) (es : list (Event F)) (σ : System F) :
  sys_run (sys_start hs p i) es = Some σ ->
  hosts (sys_monitor σ) = hs /\
  map g_host (sys_goroutines σ) = hs /\
  (forall h : string, is_Some (stats (sys_monitor σ) !! h) <-> h ∈ hs) /\
  (forall (h : string) (s : PingStats F),
     stats (sys_monitor σ) !! h = Some s -> Host s = h).
Proof.
  intros Hrun.
  pose proof (consistent_run hs es _ σ (consistent_start hs p i) Hrun) as Hc.
  destruct Hc as [_ _ _ Hg Hh Hk HH]. repeat split; try assumption.
  - apply Hk.
  - apply Hk.
Qed.

Lemma registry_fixed_witness :
  exists σ : System float,
    sys_run (sys_start ["alpha"; "beta"] 8080 5000000000) a_schedule = Some σ /\
    map g_host (sys_goroutines σ) = ["alpha"; "beta"].
Proof.
  eexists. split.
  - vm_compute. reflexivity.
  - refine (proj1 (proj2
      (registry_fixed ["alpha"; "beta"] 8080 5000000000 a_schedule _ _))).
    vm_compute. reflexivity.
Defined.

(** X5: whatever the schedule, no goroutine of [monitorHost] dereferences a
    nil [*PingStats]: the entry [m.stats[host]] it updates exists. *)
Theorem never_panics {F : Type} `{Float64Ops F}
    (hs : list string) (p i : Z) (es : list (Event F)) (σ : System F) :
  sys_run (sys_start hs p i) es = Some σ ->
  forall (j : nat) (g : Goroutine F) (tick : ProbeOutcome F * Time),
    sys_goroutines σ !! j = Some g ->
    goroutine_step (sys_monitor σ) g tick <> Panicked.
Proof.
  intros Hrun j g tick Hj.
  pose proof (consistent_run hs es _ σ (consistent_start hs p i) Hrun) as Hc.
  assert (Hin : g_host g ∈ hs).
  { rewrite <- (c_goroutines hs σ Hc).
    change (map g_host ?l) with (g_host <$> l).
    apply list_elem_of_fmap. exists g. split; [reflexivity|].
    now apply list_elem_of_lookup_2 in Hj. }
  apply (c_keys hs σ Hc) in Hin. destruct Hin as [s Hs].
  unfold goroutine_step. destruct (g_pc g) as [|o|o|]; try discriminate.
  - destruct (rw_Lock _); discriminate.
  - rewrite Hs. destruct (Apply _ _ _ _). discriminate.
Qed.

Lemma never_panics_witness :
  exists σ : System float,
    sys_run (sys_start ["alpha"; "beta"] 8080 5000000000) a_schedule = Some σ /\
    forall (tick : ProbeOutcome float * Time),
      goroutine_step (sys_monitor σ)
        {| g_host := "beta"; g_lastLatency := 0%float; g_pc := AtLock Failure |}
        tick <> Panicked.
Proof.
  eexists. split.
  - vm_compute. reflexivity.
  - intros tick.
    refine (never_panics ["alpha"; "beta"] 8080 5000000000 a_schedule _ _
              1%nat _ tick _).
    + vm_compute. reflexivity.
    + reflexivity.
Defined.

(** ** Snapshots *)

(** X6: whatever the schedule, what [GetStats] returns, when it gets the read
    lock, is one record per distinct configured host, each under the [Host]
    of its key, and no goroutine is between [Lock] and [Unlock] at that
    time; as long as a goroutine is between [Lock] and [Unlock], [GetStats]
    waits. *)
Theorem snapshot_of_running_monitor {F : Type} `{Float64Ops F}
    (hs : list string) (p i : Z) (es : list (Event F)) (σ : System F) :
  sys_run (sys_start hs p i) es = Some σ ->
  (forall records : list (PingStats F),
     GetStats (sys_monitor σ) = Ran records ->
     critical (sys_goroutines σ) = 0%nat /\
     map Host records ≡ₚ remove_dups hs /\
     length records = length (remove_dups hs)) /\
  (critical (sys_goroutines σ) = 1%nat ->
   GetStats (sys_monitor σ) = Blocked) /\
  GetStats (sys_monitor σ) <> Panicked.
Proof.
  intros Hrun.
  pose proof (consistent_run hs es _ σ (consistent_start hs p i) Hrun) as Hc.
  pose proof (consistent_records hs σ Hc) as Hperm.
  pose proof (c_critical hs σ Hc) as Hcr.
  unfold GetStats, rw_RLock.
  destruct (writer (mu (sys_monitor σ))).
  - split; [discriminate|]. split; [reflexivity | discriminate].
  - split; [|split; [rewrite Hcr; discriminate | discriminate]].
    intros records [= <-]. split; [exact Hcr|]. split; [exact Hperm|].
    rewrite <- (Permutation_length Hperm). now rewrite !length_map.
Qed.

Lemma snapshot_of_running_monitor_witness :
  exists (σ : System float) (records : list (PingStats float)),
    sys_run (sys_start ["alpha"; "beta"] 8080 5000000000) a_schedule = Some σ /\
    GetStats (sys_monitor σ) = Ran records /\
    critical (sys_goroutines σ) = 0%nat /\
    map Host records ≡ₚ remove_dups ["alpha"; "beta"] /\
    length records = length (remove_dups ["alpha"; "beta"]).
Proof.
  eexists. eexists.
  split; [vm_compute; reflexivity|].
  split; [vm_compute; reflexivity|].
  lazymatch goal with
  | |- context [critical (sys_goroutines ?s)] =>
      refine (proj1 (snapshot_of_running_monitor ["alpha"; "beta"] 8080
                       5000000000 a_schedule s _) _ _)
  end.
  - vm_compute. reflexivity.
  - vm_compute. reflexivity.
Defined.

(** X7: as long as a [GetStats] call holds the read lock, no event changes
    the statistics of any host: what the call copies is the state of the
    registry at the time it took the lock. *)
Theorem readers_see_no_update {F : Type} `{Float64Ops F}
    (hs : list string) (p i : Z) (es : list (Event F))
    (σ σ' : System F) (e : Event F) :
  sys_run (sys_start hs p i) es = Some σ ->
  (0 < sys_readers σ)%nat ->
  sys_step σ e = Some σ' ->
  stats (sys_monitor σ') = stats (sys_monitor σ).
Proof.
  intros Hrun Hpos Hstep.
  pose proof (consistent_run hs es _ σ (consistent_start hs p i) Hrun) as Hc.
  destruct Hc as [Hr Hcr Hx _ _ _ _].
  assert (Hw : writer (mu (sys_monitor σ)) = false).
  { destruct (writer (mu (sys_monitor σ))); [|reflexivity].
    specialize (Hx eq_refl). lia. }
  rewrite Hw in Hcr.
  destruct e as [j tick| |]; cbn in Hstep.
  - destruct (sys_goroutines σ !! j) as [g|] eqn:Hj; [|discriminate].
    destruct (goroutine_step (sys_monitor σ) g tick) as [[m' g']| |] eqn:Hs;
      try discriminate.
    injection Hstep as <-. cbn.
    destruct (goroutine_step_Ran _ _ _ _ _ Hs) as [_ Hpc].
    destruct (g_pc g) as [|o|o|] eqn:Epc.
    + now destruct Hpc as (-> & _).
    + destruct Hpc as (_ & Hrd & _). lia.
    + assert (Hin : in_critical g = true) by (unfold in_critical; now rewrite Epc).
      pose proof (critical_member _ j g Hj Hin). lia.
    + now destruct Hpc as (-> & _).
  - destruct (rw_RLock _); [|discriminate]. now injection Hstep as <-.
  - destruct (sys_readers σ); [discriminate|]. now injection Hstep as <-.
Qed.

Lemma readers_see_no_update_witness :
  exists σ σ' : System float,
    sys_run (sys_start ["alpha"; "beta"] 8080 5000000000) a_schedule = Some σ /\
    (0 < sys_readers σ)%nat /\
    sys_step σ (EvStep 0 (Failure, TimeAt 6)) = Some σ' /\
    stats (sys_monitor σ') = stats (sys_monitor σ).
Proof.
  eexists. eexists.
  split; [vm_compute; reflexivity|].
  split; [exact (Nat.lt_0_succ 0)|].
  split; [vm_compute; reflexivity|].
  refine (readers_see_no_update ["alpha"; "beta"] 8080 5000000000 a_schedule
            _ _ (EvStep 0 (Failure, TimeAt 6)) _ _ _).
  - vm_compute. reflexivity.
  - exact (Nat.lt_0_succ 0).
  - vm_compute. reflexivity.
Defined.

(** ** No deadlock on the lock *)

(** X8: whatever the schedule, a goroutine that waits for the lock waits for
    somebody who can go on: a [GetStats] call that can return, or the
    goroutine that is between [Lock] and [Unlock], whose next step runs
    whatever the outcome of its probe. *)
Theorem lock_holder_can_run {F : Type} `{Float64Ops F}
    (hs : list string) (p i : Z) (es : list (Event F)) (σ : System F)
    (j : nat) (g : Goroutine F) (tick : ProbeOutcome F * Time) :
  sys_run (sys_start hs p i) es = Some σ ->
  sys_goroutines σ !! j = Some g ->
  goroutine_step (sys_monitor σ) g tick = Blocked ->
  (exists σ', sys_step σ EvRUnlock = Some σ') \/
  (exists (k : nat) (gk : Goroutine F),
     sys_goroutines σ !! k = Some gk /\ in_critical gk = true /\ k <> j /\
     forall tick', exists σ', sys_step σ (EvStep k tick') = Some σ').
Proof.
  intros Hrun Hj Hb.
  pose proof (consistent_run hs es _ σ (consistent_start hs p i) Hrun) as Hc.
  unfold goroutine_step in Hb.
  destruct (g_pc g) as [|o|o|] eqn:Epc; try discriminate.
  2:{ destruct (stats (sys_monitor σ) !! g_host g); [|discriminate].
      destruct (Apply _ _ _ _). discriminate. }
  unfold rw_Lock in Hb.
  destruct (writer (mu (sys_monitor σ))) eqn:Hw.
  - right.
    pose proof (c_critical hs σ Hc) as Hcr. rewrite Hw in Hcr.
    destruct (critical_pos (sys_goroutines σ)) as (k & gk & Hk & Hgk); [lia|].
    exists k, gk. split; [exact Hk|]. split; [exact Hgk|]. split.
    + intros ->. rewrite Hj in Hk. injection Hk as <-.
      unfold in_critical in Hgk. rewrite Epc in Hgk. discriminate.
    + intros tick'. cbn. rewrite Hk.
      assert (Hin : g_host gk ∈ hs).
      { rewrite <- (c_goroutines hs σ Hc).
        change (map g_host ?l) with (g_host <$> l).
        apply list_elem_of_fmap. exists gk. split; [reflexivity|].
        now apply list_elem_of_lookup_2 in Hk. }
      apply (c_keys hs σ Hc) in Hin. destruct Hin as [s Hs].
      unfold goroutine_step. unfold in_critical in Hgk.
      destruct (g_pc gk) as [|o'|o'|]; try discriminate.
      * rewrite Hs. destruct (Apply _ _ _ _). eauto.
      * eauto.
  - left. cbn in Hb.
    destruct (Nat.eqb (readers (mu (sys_monitor σ))) 0) eqn:Hr;
      [discriminate|].
    apply Nat.eqb_neq in Hr. rewrite (c_readers hs σ Hc) in Hr.
    cbn. destruct (sys_readers σ); [congruence|]. eauto.
Qed.

Lemma lock_holder_can_run_witness :
  exists σ : System float,
    sys_run (sys_start ["alpha"; "beta"] 8080 5000000000)
      [EvStep 0 (Failure, TimeAt 1); EvStep 0 (Failure, TimeAt 2);
       EvStep 1 (Failure, TimeAt 3)] = Some σ /\
    goroutine_step (sys_monitor σ)
      {| g_host := "beta"; g_lastLatency := 0%float; g_pc := AtLock Failure |}
      (Failure, TimeAt 4) = Blocked /\
    ((exists σ', sys_step σ EvRUnlock = Some σ') \/
     (exists (k : nat) (gk : Goroutine float),
        sys_goroutines σ !! k = Some gk /\ in_critical gk = true /\
        k <> 1%nat /\
        forall tick', exists σ', sys_step σ (EvStep k tick') = Some σ')).
Proof.
  eexists. split; [vm_compute; reflexivity|].
  split; [vm_compute; reflexivity|].
  refine (lock_holder_can_run ["alpha"; "beta"] 8080 5000000000
            [EvStep 0 (Failure, TimeAt 1); EvStep 0 (Failure, TimeAt 2);
             EvStep 1 (Failure, TimeAt 3)] _ 1%nat _ (Failure, TimeAt 4)
            _ _ _).
  - vm_compute. reflexivity.
  - reflexivity.
  - vm_compute. reflexivity.
Defined.

(** ** Distinct hosts do not interfere *)

Section SequentialFacts.
Context {F : Type} `{Float64Ops F}.

Lemma distinct_goroutines (hs : list string) (gs : list (Goroutine F))
    (j k : nat) (gj gk : Goroutine F) :
  NoDup hs -> map g_host gs = hs ->
  gs !! j = Some gj -> gs !! k = Some gk -> j <> k ->
  g_host gj <> g_host gk.
Proof.
  intros Hnd <- Hj Hk Hne E. apply Hne.
  change (map g_host gs) with (g_host <$> gs) in Hnd.
  apply (NoDup_lookup _ j k (g_host gj) Hnd).
  - now rewrite list_lookup_fmap, Hj.
  - now rewrite list_lookup_fmap, Hk, E.
Qed.

Lemma own_events_app (j : nat) (es es' : list (Event F)) :
  own_events j (es ++ es') = own_events j es ++ own_events j es'.
Proof.
  induction es as [|[k tick| |] es IH]; cbn; try assumption; [reflexivity|].
  destruct (Nat.eqb k j); cbn; now rewrite IH.
Qed.

Lemma own_history_snoc (evs : list (ProbeOutcome F * Time))
    (tick : ProbeOutcome F * Time) :
  own_history (evs ++ [tick]) = own_step (own_history evs) tick.
Proof. unfold own_history. now rewrite fold_left_app. Qed.

Lemma sys_run_snoc (σ : System F) (es : list (Event F)) (e : Event F) :
  sys_run σ (es ++ [e])
  = match sys_run σ es with
    | Some σ1 => sys_step σ1 e
    | None => None
    end.
Proof.
  revert σ. induction es as [|e' es IH]; intros σ; cbn.
  - destruct (sys_step σ e); reflexivity.
  - destruct (sys_step σ e'); [apply IH | reflexivity].
Qed.

Lemma sequential_start (hs : list string) (p i : Z) :
  sequential [] (sys_start (F := F) hs p i).
Proof.
  intros j g Hj. cbn in Hj |- *.
  unfold Start in Hj. cbn [hosts NewMonitor] in Hj.
  change (map ?f hs) with (f <$> hs) in Hj.
  rewrite list_lookup_fmap in Hj.
  destruct (hs !! j) as [h|] eqn:Hh; [|discriminate].
  injection Hj as <-. cbn. split; [reflexivity|]. split; [|reflexivity].
  pose proof (NewMonitor_lookup (F := F) hs p i h) as Hl.
  unfold NewMonitor in Hl. cbn in Hl. rewrite Hl.
  rewrite decide_True; [reflexivity|].
  now apply list_elem_of_lookup_2 in Hh.
Qed.

Lemma sequential_step (hs : list string) (es : list (Event F))
    (σ σ' : System F) (e : Event F) :
  NoDup hs -> consistent hs σ -> sequential es σ ->
  sys_step σ e = Some σ' -> sequential (es ++ [e]) σ'.
Proof.
  intros Hnd Hc Hseq Hstep j g Hj.
  rewrite own_events_app.
  destruct e as [k tick| |]; cbn in Hstep.
  - destruct (sys_goroutines σ !! k) as [gk|] eqn:Hk; [|discriminate].
    destruct (goroutine_step (sys_monitor σ) gk tick) as [[m' gk']| |] eqn:Hs;
      try discriminate.
    injection Hstep as <-.
    destruct (goroutine_step_Ran _ _ _ _ _ Hs) as [Hhost Hpc].
    cbn [sys_goroutines sys_monitor] in Hj |- *.
    cbn [own_events].
    destruct (decide (j = k)) as [->|Hne].
    + rewrite Nat.eqb_refl, own_history_snoc.
      rewrite list_lookup_insert_eq in Hj
        by (now apply lookup_lt_Some in Hk).
      injection Hj as <-.
      destruct (Hseq k gk Hk) as (Hpc0 & Hst & Hl).
      rewrite Hhost. unfold own_step. rewrite <- Hpc0.
      destruct (g_pc gk) as [|o|o|]; cbn [fst snd].
      * destruct Hpc as (-> & -> & ->). repeat split; assumption.
      * destruct Hpc as (_ & _ & -> & -> & ->). repeat split; assumption.
      * destruct Hpc as (s & Hlook & -> & -> & ->).
        rewrite Hst in Hlook. injection Hlook as <-.
        rewrite monitorHost_snoc. unfold task_step. cbn [fst snd].
        rewrite <- Hl. cbn [stats with_stats].
        rewrite lookup_insert_eq.
        destruct (Apply _ _ _ _) as [s' l']. repeat split.
      * destruct Hpc as (-> & -> & ->). repeat split; assumption.
    + assert (Ekj : Nat.eqb k j = false) by (apply Nat.eqb_neq; congruence).
      rewrite Ekj, app_nil_r.
      rewrite list_lookup_insert_ne in Hj by congruence.
      destruct (Hseq j g Hj) as (Hpc0 & Hst & Hl).
      split; [exact Hpc0|]. split; [|exact Hl].
      destruct (g_pc gk) as [|o|o|].
      * now destruct Hpc as (-> & _).
      * now destruct Hpc as (_ & _ & -> & _).
      * destruct Hpc as (s & _ & -> & _). cbn [stats with_stats].
        rewrite lookup_insert_ne; [exact Hst|].
        apply not_eq_sym.
        exact (distinct_goroutines hs _ j k g gk Hnd
                 (c_goroutines hs σ Hc) Hj Hk Hne).
      * now destruct Hpc as (-> & _).
  - destruct (rw_RLock _); [|discriminate]. injection Hstep as <-.
    cbn [own_events]. rewrite app_nil_r. exact (Hseq j g Hj).
  - destruct (sys_readers σ); [discriminate|]. injection Hstep as <-.
    cbn [own_events]. rewrite app_nil_r. exact (Hseq j g Hj).
Qed.

Lemma sequential_run (hs : list string) (p i : Z) (es : list (Event F))
    (σ : System F) :
  NoDup hs -> sys_run (sys_start hs p i) es = Some σ -> sequential es σ.
Proof.
  intros Hnd. revert σ.
  induction es as [|e es IH] using rev_ind; intros σ Hrun.
  - cbn in Hrun. injection Hrun as <-. apply sequential_start.
  - rewrite sys_run_snoc in Hrun.
    destruct (sys_run (sys_start hs p i) es) as [σ1|] eqn:Hrun1;
      [|discriminate].
    apply (sequential_step hs es σ1 σ e Hnd); [|now apply IH|exact Hrun].
    exact (consistent_run hs es _ σ1 (consistent_start hs p i) Hrun1).
Qed.

End SequentialFacts.

(** X9: when no host is configured twice then, whatever the schedule, every
    goroutine stands where its own steps have taken it, and the entry of its
    host and its [lastLatency] are what the loop of [monitorHost] produces when
    it runs alone on the probes this goroutine has applied itself: the
    outcomes it got and the times it read at its own steps, in their order.
    The steps of the other goroutines and the [GetStats] calls of the
    schedule do not enter. *)
Theorem distinct_hosts_run_sequentially {F : Type} `{Float64Ops F}
    (hs : list string) (p i : Z) (es : list (Event F)) (σ : System F) :
  NoDup hs ->
  sys_run (sys_start hs p i) es = Some σ ->
  forall (j : nat) (g : Goroutine F),
    sys_goroutines σ !! j = Some g ->
    g_pc g = fst (own_history (own_events j es)) /\
    stats (sys_monitor σ) !! g_host g
    = Some (stats_of (monitorHost (g_host g)
                        (snd (own_history (own_events j es))))) /\
    g_lastLatency g
    = lastLatency_of (monitorHost (g_host g)
                        (snd (own_history (own_events j es)))).
Proof.
  intros Hnd Hrun. exact (sequential_run hs p i es σ Hnd Hrun).
Qed.

Lemma distinct_hosts_run_sequentially_witness :
  NoDup ["alpha"; "beta"] /\
  snd (own_history (own_events 0 a_schedule))
  = [(Success 20%float, TimeAt 4)] /\
  exists σ : System float,
    sys_run (sys_start ["alpha"; "beta"] 8080 5000000000) a_schedule = Some σ /\
    stats (sys_monitor σ) !! "alpha"
    = Some (stats_of (monitorHost "alpha"
                        (snd (own_history (own_events 0 a_schedule))))).
Proof.
  assert (Hnd : NoDup ["alpha"; "beta"])
    by (apply (bool_decide_unpack (NoDup ["alpha"; "beta"]));
        vm_compute; exact I).
  split; [exact Hnd|]. split; [reflexivity|].
  eexists. split; [vm_compute; reflexivity|].
  refine (proj1 (proj2
    (distinct_hosts_run_sequentially ["alpha"; "beta"] 8080 5000000000
       a_schedule _ Hnd _ 0%nat
       {| g_host := "alpha"; g_lastLatency := 20%float; g_pc := AtTick |}
       _))).
  - vm_compute. reflexivity.
  - reflexivity.
Defined.

(** ** The HTTP handler *)

(** X10: on a running monitor, whatever the schedule, [ServeHTTP] answers
    "/" with the dashboard page and every path other than "/" and
    "/api/stats" with a 404, and neither of the two ever waits for the lock;
    what it answers to "/api/stats", when it gets the read lock, is one
    record per distinct configured host, and as long as a goroutine is
    between [Lock] and [Unlock] it waits on that path. *)
Theorem ServeHTTP_routes {F : Type} `{Float64Ops F}
    (hs : list string) (p i : Z) (es : list (Event F)) (σ : System F)
    (path : string) :
  sys_run (sys_start hs p i) es = Some σ ->
  match ServeHTTP (sys_monitor σ) path with
  | Ran (JsonStats records) =>
      path = "/api/stats" /\ critical (sys_goroutines σ) = 0%nat /\
      map Host records ≡ₚ remove_dups hs
  | Ran HtmlPage => path = "/"
  | Ran NotFound => path <> "/api/stats" /\ path <> "/"
  | Blocked => path = "/api/stats"
  | Panicked => False
  end /\
  ServeHTTP (sys_monitor σ) "/" = Ran HtmlPage /\
  (critical (sys_goroutines σ) = 1%nat ->
   ServeHTTP (sys_monitor σ) "/api/stats" = Blocked).
Proof.
  intros Hrun.
  pose proof (consistent_run hs es _ σ (consistent_start hs p i) Hrun) as Hc.
  pose proof (consistent_records hs σ Hc) as Hperm.
  pose proof (c_critical hs σ Hc) as Hcr.
  split; [|split; [reflexivity|]].
  - unfold ServeHTTP.
    destruct (String.eqb path "/api/stats") eqn:Eapi.
    + apply String.eqb_eq in Eapi. unfold GetStats, rw_RLock.
      destruct (writer (mu (sys_monitor σ))); [assumption|].
      repeat split; assumption.
    + apply String.eqb_neq in Eapi.
      destruct (String.eqb path "/") eqn:Eroot.
      * now apply String.eqb_eq in Eroot.
      * apply String.eqb_neq in Eroot. split; assumption.
  - intros Hone. unfold ServeHTTP, GetStats, rw_RLock. cbn.
    destruct (writer (mu (sys_monitor σ))); [reflexivity|].
    rewrite Hcr in Hone. discriminate.
Qed.

Lemma ServeHTTP_routes_witness :
  exists σ : System float,
    sys_run (sys_start ["alpha"; "beta"] 8080 5000000000)
      [EvStep 0 (Failure, TimeAt 1); EvStep 0 (Failure, TimeAt 2)] = Some σ /\
    critical (sys_goroutines σ) = 1%nat /\
    ServeHTTP (sys_monitor σ) "/api/stats" = Blocked.
Proof.
  eexists. split; [vm_compute; reflexivity|].
  split; [vm_compute; reflexivity|].
  lazymatch goal with
  | |- context [ServeHTTP (sys_monitor ?s)] =>
      refine (proj2 (proj2 (ServeHTTP_routes ["alpha"; "beta"] 8080 5000000000
                [EvStep 0 (Failure, TimeAt 1); EvStep 0 (Failure, TimeAt 2)]
                s "/" _)) _)
  end.
  - vm_compute. reflexivity.
  - vm_compute. reflexivity.
Defined.

(** ** [main] *)

Lemma Split_length (s : string) : length (Split s) = S (commas s).
Proof.
  induction s as [|c s IH]; [reflexivity|]. cbn.
  destruct (Ascii.eqb c ","%char); cbn; [now rewrite IH|].
  destruct (Split s) as [|piece pieces]; [discriminate|]. exact IH.
Qed.

Lemma remove_dups_length (l : list string) :
  (length (remove_dups l) <= length l)%nat.
Proof.
  induction l as [|x l IH]; cbn; [lia|].
  destruct (decide_rel elem_of x l); cbn; lia.
Qed.

Lemma remove_dups_nonempty (l : list string) :
  l <> [] -> (1 <= length (remove_dups l))%nat.
Proof.
  destruct l as [|x l]; [congruence|]. intros _.
  assert (Hin : x ∈ remove_dups (x :: l))
    by (apply elem_of_remove_dups; now left).
  destruct (remove_dups (x :: l)); [now apply elem_of_nil in Hin|].
  cbn. lia.
Qed.

(** X11: [main] refuses the empty [-hosts] flag only. For any other flag it
    starts one goroutine per comma-separated field, one more than the flag
    has commas: no field is dropped, be it empty or a repetition, while the
    registry has at least one entry and at most one per field. *)
Theorem main_one_goroutine_per_field {F : Type} `{Float64Ops F}
    (TrimSpace : string -> string)
    (hostsFlag : string) (portFlag intervalFlag : Z) :
  match main (F := F) TrimSpace hostsFlag portFlag intervalFlag with
  | None => hostsFlag = ""
  | Some σ =>
      hostsFlag <> "" /\
      map g_host (sys_goroutines σ) = map TrimSpace (Split hostsFlag) /\
      length (sys_goroutines σ) = S (commas hostsFlag) /\
      (1 <= size (stats (sys_monitor σ)) <= S (commas hostsFlag))%nat
  end.
Proof.
  unfold main. destruct (String.eqb hostsFlag "") eqn:E.
  - now apply String.eqb_eq in E.
  - apply String.eqb_neq in E. split; [exact E|].
    set (hs := map TrimSpace (Split hostsFlag)).
    pose proof (consistent_start (F := F) hs portFlag intervalFlag) as Hc.
    pose proof (consistent_records hs _ Hc) as Hperm.
    assert (Hlen : length hs = S (commas hostsFlag))
      by (unfold hs; now rewrite length_map, Split_length).
    split; [exact (c_goroutines hs _ Hc)|]. split.
    + rewrite <- Hlen.
      pose proof (f_equal length (c_goroutines hs _ Hc)) as Hg.
      rewrite length_map in Hg. exact Hg.
    + assert (Hsize : size (stats (sys_monitor
                        (sys_start (F := F) hs portFlag intervalFlag)))
                      = length (remove_dups hs)).
      { rewrite <- (Permutation_length Hperm), !length_map.
        unfold size, map_size. now rewrite length_map_to_list. }
      rewrite Hsize, <- Hlen. split.
      * apply remove_dups_nonempty. destruct hs; [discriminate|congruence].
      * apply remove_dups_length.
Qed.

(** ** Counters of a running monitor *)

Section CountedFacts.
Context {F : Type} `{Float64Ops F}.

Lemma counted_start (hs : list string) (p i : Z) :
  counted 0 (sys_start (F := F) hs p i).
Proof.
  intros h s. cbn.
  pose proof (NewMonitor_lookup (F := F) hs p i h) as Hl.
  unfold NewMonitor in Hl. cbn in Hl. rewrite Hl.
  destruct (decide (h ∈ hs)); [|discriminate].
  intros [= <-]. cbn. lia.
Qed.

Lemma counted_step (n : Z) (σ σ' : System F) (e : Event F) :
  0 <= n < int_max -> counted n σ ->
  sys_step σ e = Some σ' -> counted (n + 1) σ'.
Proof.
  intros Hn Hcnt Hstep.
  assert (Hweak : counted (n + 1) σ).
  { intros h s Hs. destruct (Hcnt h s Hs). lia. }
  destruct e as [k tick| |]; cbn in Hstep.
  - destruct (sys_goroutines σ !! k) as [gk|] eqn:Hk; [|discriminate].
    destruct (goroutine_step (sys_monitor σ) gk tick) as [[m' gk']| |] eqn:Hs;
      try discriminate.
    injection Hstep as <-.
    destruct (goroutine_step_Ran _ _ _ _ _ Hs) as [_ Hpc].
    destruct (g_pc gk) as [|o|o|].
    + destruct Hpc as (-> & _). exact Hweak.
    + destruct Hpc as (_ & _ & -> & _). exact Hweak.
    + destruct Hpc as (s & Hlook & -> & _).
      intros h s'. cbn [sys_monitor stats with_stats].
      destruct (decide (h = g_host gk)) as [->|Hne].
      * rewrite lookup_insert_eq. intros [= <-].
        destruct (Hcnt _ s Hlook) as [Hrs Hsn].
        rewrite Apply_PacketsSent, Apply_PacketsRecv.
        rewrite (wrap_int_id (PacketsSent s + 1))
          by (unfold int_min, int_max in *; lia).
        destruct o as [r|].
        -- rewrite (wrap_int_id (PacketsRecv s + 1))
             by (unfold int_min, int_max in *; lia).
           lia.
        -- lia.
      * rewrite lookup_insert_ne by congruence. apply Hweak.
    + destruct Hpc as (-> & _). exact Hweak.
  - destruct (rw_RLock _); [|discriminate]. injection Hstep as <-.
    exact Hweak.
  - destruct (sys_readers σ); [discriminate|]. injection Hstep as <-.
    exact Hweak.
Qed.

Lemma counted_run (es : list (Event F)) (n : Z) (σ σ' : System F) :
  0 <= n -> n + Z.of_nat (length es) <= int_max -> counted n σ ->
  sys_run σ es = Some σ' -> counted (n + Z.of_nat (length es)) σ'.
Proof.
  revert n σ. induction es as [|e es IH]; intros n σ Hn Hb Hcnt Hrun;
    cbn in Hrun.
  - injection Hrun as <-. cbn. now rewrite Z.add_0_r.
  - destruct (sys_step σ e) as [σ1|] eqn:Hs; [|discriminate].
    cbn [length] in Hb |- *. rewrite Nat2Z.inj_succ in Hb |- *.
    replace (n + Z.succ (Z.of_nat (length es)))
      with ((n + 1) + Z.of_nat (length es)) by lia.
    apply (IH (n + 1) σ1); [lia | lia | | exact Hrun].
    apply (counted_step n σ σ1 e); [lia | exact Hcnt | exact Hs].
Qed.

End CountedFacts.

(** X12: whatever the schedule, and also when a host is configured several
    times and several goroutines write its entry, every entry of the registry
    has [0 <= PacketsRecv <= PacketsSent], and [PacketsSent] is at most the
    number of events so far, as long as that number is in the range of the
    64-bit counters. *)
Theorem counters_of_running_monitor {F : Type} `{Float64Ops F}
    (hs : list string) (p i : Z) (es : list (Event F)) (σ : System F) :
  Z.of_nat (length es) <= int_max ->
  sys_run (sys_start hs p i) es = Some σ ->
  forall (h : string) (s : PingStats F),
    stats (sys_monitor σ) !! h = Some s ->
    0 <= PacketsRecv s <= PacketsSent s /\
    PacketsSent s <= Z.of_nat (length es).
Proof.
  intros Hlen Hrun.
  exact (counted_run es 0 _ σ (Z.le_refl 0) Hlen (counted_start hs p i) Hrun).
Qed.

Lemma counters_of_running_monitor_witness :
  Z.of_nat (length a_schedule) <= int_max /\
  exists σ : System float,
    sys_run (sys_start ["alpha"; "alpha"] 8080 5000000000) a_schedule = Some σ /\
    exists s : PingStats float,
      stats (sys_monitor σ) !! "alpha" = Some s /\
      0 <= PacketsRecv s <= PacketsSent s /\
      PacketsSent s <= Z.of_nat (length a_schedule).
Proof.
  assert (Hlen : Z.of_nat (length a_schedule) <= int_max)
    by (vm_compute; discriminate).
  split; [exact Hlen|].
  eexists. split; [vm_compute; reflexivity|].
  eexists. split; [vm_compute; reflexivity|].
  refine (counters_of_running_monitor ["alpha"; "alpha"] 8080 5000000000
            a_schedule _ Hlen _ "alpha" _ _).
  - vm_compute. reflexivity.
  - vm_compute. reflexivity.
Defined.
